(** * TelegramBotAPI: a shallow embedding of [core.py]

    The development follows the source file class by class:

    - [Json]      the JSON grammar (RFC 8259), as a reader of JSON text;
                  it gives the keyboard claims their meaning of valid JSON;
    - [InlineKeyboard], [ReplyKeyboard]  the two [__str__] methods;
    - [Py]        the Python values that reach the bot and the operations
                  the source applies to them;
    - [TelegramBot]  the class: configuration, update cursor, transport,
                  error handling and the facade operations;
    - [Session]   sequences of calls and the outcomes of the network;
    - [Reference] a concrete runtime for the worked scenarios.

    The definitions come first; the facts about them follow, the claims
    C1 to C10 among them.

    Python [str] values are modelled as [string] holding their UTF-8 bytes
    (the only slice of the source, [result[:-1]], always removes an ASCII
    character); Python [int] is [Z]. *)

From Stdlib Require Import ZArith NArith String Ascii List Bool Lia DecimalString.
From stdpp Require Import gmap strings.
Import ListNotations.

Local Open Scope string_scope.
Local Open Scope list_scope.
Set Warnings "-register-all".

(** The double quote character and the one-character string holding it. *)
Definition dquote : ascii := "034"%char.
Definition DQ : string := String dquote EmptyString.

(** ** String helpers shared by the modules *)

(** [s[:-1]]: the string without its last character. *)
Fixpoint drop_last (s : string) : string :=
  match s with
  | EmptyString => EmptyString
  | String c EmptyString => EmptyString
  | String c r => String c (drop_last r)
  end.

(** [p in s] for Python strings: [p] occurs in [s] as a substring. *)
Fixpoint is_prefix (p s : string) : bool :=
  match p, s with
  | EmptyString, _ => true
  | String a p', String b s' => Ascii.eqb a b && is_prefix p' s'
  | String _ _, EmptyString => false
  end.

Fixpoint contains (s p : string) : bool :=
  is_prefix p s ||
  match s with
  | EmptyString => false
  | String _ s' => contains s' p
  end.

(** [sep.join(l)]. *)
Fixpoint join (sep : string) (l : list string) : string :=
  match l with
  | [] => EmptyString
  | [x] => x
  | x :: l' => x +:+ sep +:+ join sep l'
  end.

(** The concatenation of the strings of [l]. *)
Fixpoint concat_str (l : list string) : string :=
  match l with
  | [] => EmptyString
  | x :: l' => x +:+ concat_str l'
  end.

(** * JSON text *)
Module Json.

Inductive json : Type :=
| JNull
| JBool (b : bool)
| JNum (literal : string)
| JStr (s : string)
| JArr (elements : list json)
| JObj (members : list (string * json)).

Definition code (c : ascii) : N := N_of_ascii c.

(** Insignificant whitespace: space, tab, line feed, carriage return. *)
Definition is_ws (c : ascii) : bool :=
  let n := code c in (n =? 32)%N || (n =? 9)%N || (n =? 10)%N || (n =? 13)%N.

Fixpoint skip_ws (s : string) : string :=
  match s with
  | EmptyString => EmptyString
  | String c r => if is_ws c then skip_ws r else s
  end.

(** A character that may stand for itself inside a JSON string: not a
    control character, not the double quote (34), not the backslash (92). *)
Definition plain (c : ascii) : bool :=
  let n := code c in negb (n =? 34)%N && negb (n =? 92)%N && negb (n <? 32)%N.

(** The character named by a one-letter escape. *)
Definition unescape (e : ascii) : option ascii :=
  let n := code e in
  if (n =? 34)%N then Some e                        (* quote *)
  else if (n =? 92)%N then Some e                   (* backslash *)
  else if (n =? 47)%N then Some e                   (* slash *)
  else if (n =? 98)%N then Some (ascii_of_N 8)      (* b *)
  else if (n =? 102)%N then Some (ascii_of_N 12)    (* f *)
  else if (n =? 110)%N then Some (ascii_of_N 10)    (* n *)
  else if (n =? 114)%N then Some (ascii_of_N 13)    (* r *)
  else if (n =? 116)%N then Some (ascii_of_N 9)     (* t *)
  else None.

Definition hex_digit (c : ascii) : option N :=
  let n := code c in
  if (48 <=? n)%N && (n <=? 57)%N then Some (n - 48)%N
  else if (65 <=? n)%N && (n <=? 70)%N then Some (n - 55)%N
  else if (97 <=? n)%N && (n <=? 102)%N then Some (n - 87)%N
  else None.

Definition hex4 (a b c d : ascii) : option N :=
  match hex_digit a, hex_digit b, hex_digit c, hex_digit d with
  | Some x, Some y, Some z, Some w => Some (x * 4096 + y * 256 + z * 16 + w)%N
  | _, _, _, _ => None
  end.

(** UTF-8 bytes of a 16-bit code unit (each unit of a surrogate pair is
    encoded on its own). *)
Definition utf8 (u : N) (tail : string) : string :=
  if (u <? 128)%N then String (ascii_of_N u) tail
  else if (u <? 2048)%N then
    String (ascii_of_N (192 + u / 64)) (String (ascii_of_N (128 + u mod 64)) tail)
  else
    String (ascii_of_N (224 + u / 4096))
      (String (ascii_of_N (128 + (u / 64) mod 64))
         (String (ascii_of_N (128 + u mod 64)) tail)).

(** The characters of a string after its opening quote, up to and including
    the closing quote: the decoded content and the rest of the input. *)
Fixpoint parse_chars (s : string) : option (string * string) :=
  match s with
  | EmptyString => None
  | String c r =>
    if (code c =? 34)%N then Some (EmptyString, r)
    else if (code c =? 92)%N then
      match r with
      | EmptyString => None
      | String e r1 =>
        match unescape e with
        | Some ch =>
          match parse_chars r1 with
          | Some (v, rest) => Some (String ch v, rest)
          | None => None
          end
        | None =>
          if (code e =? 117)%N then
            match r1 with
            | String h1 (String h2 (String h3 (String h4 r2))) =>
              match hex4 h1 h2 h3 h4 with
              | Some u =>
                match parse_chars r2 with
                | Some (v, rest) => Some (utf8 u v, rest)
                | None => None
                end
              | None => None
              end
            | _ => None
            end
          else None
        end
      end
    else if (code c <? 32)%N then None
    else
      match parse_chars r with
      | Some (v, rest) => Some (String c v, rest)
      | None => None
      end
  end.

Definition is_digit (c : ascii) : bool := (48 <=? code c)%N && (code c <=? 57)%N.

(** The longest run of digits at the head of [s], and what follows it. *)
Fixpoint digits (s : string) : string * string :=
  match s with
  | EmptyString => (EmptyString, EmptyString)
  | String c r =>
    if is_digit c then let '(ds, rest) := digits r in (String c ds, rest)
    else (EmptyString, s)
  end.

Definition is_empty (s : string) : bool :=
  match s with EmptyString => true | String _ _ => false end.

(** A number: an optional minus sign, an integer part (a lone zero, or a
    non-zero digit followed by digits), an optional fraction (a dot and at
    least one digit) and an optional exponent (e or E, an optional sign, at
    least one digit); the literal is kept as written. *)
Definition parse_int_part (s : string) : option (string * string) :=
  match s with
  | EmptyString => None
  | String c r =>
    if (code c =? 48)%N then Some (String c EmptyString, r)
    else if is_digit c then let '(ds, rest) := digits r in Some (String c ds, rest)
    else None
  end.

Definition parse_frac (s : string) : option (string * string) :=
  match s with
  | String c r =>
    if (code c =? 46)%N then
      let '(ds, rest) := digits r in
      if is_empty ds then None else Some (String c ds, rest)
    else Some (EmptyString, s)
  | EmptyString => Some (EmptyString, s)
  end.

Definition parse_exp (s : string) : option (string * string) :=
  match s with
  | String c r =>
    if (code c =? 101)%N || (code c =? 69)%N then
      let '(sign, r1) :=
        match r with
        | String g r' =>
          if (code g =? 43)%N || (code g =? 45)%N then (String g EmptyString, r')
          else (EmptyString, r)
        | EmptyString => (EmptyString, r)
        end in
      let '(ds, rest) := digits r1 in
      if is_empty ds then None else Some (String c (sign +:+ ds), rest)
    else Some (EmptyString, s)
  | EmptyString => Some (EmptyString, s)
  end.

Definition parse_number (s : string) : option (string * string) :=
  let '(sign, s1) :=
    match s with
    | String c r => if (code c =? 45)%N then (String c EmptyString, r) else (EmptyString, s)
    | EmptyString => (EmptyString, s)
    end in
  match parse_int_part s1 with
  | None => None
  | Some (i, s2) =>
    match parse_frac s2 with
    | None => None
    | Some (f, s3) =>
      match parse_exp s3 with
      | None => None
      | Some (e, s4) => Some (sign +:+ i +:+ f +:+ e, s4)
      end
    end
  end.

Fixpoint strip_prefix (p s : string) : option string :=
  match p, s with
  | EmptyString, _ => Some s
  | String a p', String b s' => if Ascii.eqb a b then strip_prefix p' s' else None
  | String _ _, EmptyString => None
  end.

Section Sequences.
  (** The reader of one value, which skips the whitespace before it. *)
Variable pv : string -> option (json * string).

(** [value (, value)* ]] after the opening bracket; [n] bounds the number
    of elements read. *)
Fixpoint parse_elements (n : nat) (s : string) : option (list json * string) :=
  match n with
  | O => None
  | S n' =>
    match pv s with
    | None => None
    | Some (v, r) =>
      match skip_ws r with
      | EmptyString => None
      | String c r' =>
        if (code c =? 44)%N then
          match parse_elements n' r' with
          | Some (vs, rest) => Some (v :: vs, rest)
          | None => None
          end
        else if (code c =? 93)%N then Some ([v], r')
        else None
      end
    end
  end.

(** [string : value (, string : value)* }] after the opening brace. *)
Fixpoint parse_members (n : nat) (s : string) : option (list (string * json) * string) :=
  match n with
  | O => None
  | S n' =>
    match skip_ws s with
    | EmptyString => None
    | String q r0 =>
      if (code q =? 34)%N then
        match parse_chars r0 with
        | None => None
        | Some (k, r1) =>
          match skip_ws r1 with
          | EmptyString => None
          | String c r2 =>
            if (code c =? 58)%N then
              match pv r2 with
              | None => None
              | Some (v, r3) =>
                match skip_ws r3 with
                | EmptyString => None
                | String d r4 =>
                  if (code d =? 44)%N then
                    match parse_members n' r4 with
                    | Some (ms, rest) => Some ((k, v) :: ms, rest)
                    | None => None
                    end
                  else if (code d =? 125)%N then Some ([(k, v)], r4)
                  else None
                end
              end
            else None
          end
        end
      else None
    end
  end.
End Sequences.

(** One JSON value at the head of [s]; [fuel] bounds the nesting depth and
    the length of every array and object. *)
Fixpoint parse_value (fuel : nat) (s : string) : option (json * string) :=
  match fuel with
  | O => None
  | S f =>
    match skip_ws s with
    | EmptyString => None
    | String c r =>
      if (code c =? 34)%N then
        match parse_chars r with
        | Some (v, rest) => Some (JStr v, rest)
        | None => None
        end
      else if (code c =? 91)%N then
        match skip_ws r with
        | EmptyString => None
        | String d r' =>
          if (code d =? 93)%N then Some (JArr [], r')
          else
            match parse_elements (parse_value f) f r with
            | Some (vs, rest) => Some (JArr vs, rest)
            | None => None
            end
        end
      else if (code c =? 123)%N then
        match skip_ws r with
        | EmptyString => None
        | String d r' =>
          if (code d =? 125)%N then Some (JObj [], r')
          else
            match parse_members (parse_value f) f r with
            | Some (ms, rest) => Some (JObj ms, rest)
            | None => None
            end
        end
      else if (code c =? 116)%N then
        match strip_prefix "rue" r with
        | Some rest => Some (JBool true, rest)
        | None => None
        end
      else if (code c =? 102)%N then
        match strip_prefix "alse" r with
        | Some rest => Some (JBool false, rest)
        | None => None
        end
      else if (code c =? 110)%N then
        match strip_prefix "ull" r with
        | Some rest => Some (JNull, rest)
        | None => None
        end
      else
        match parse_number (String c r) with
        | Some (lit, rest) => Some (JNum lit, rest)
        | None => None
        end
    end
  end.

(** [s] is a JSON text denoting [v]: one value, whitespace around it. *)
Definition is_json (s : string) (v : json) : Prop :=
  exists fuel rest, parse_value fuel s = Some (v, rest) /\ skip_ws rest = EmptyString.

Definition valid_json (s : string) : Prop := exists v, is_json s v.

(** The executable reader: the length of the text is fuel enough. *)
Definition read (s : string) : option json :=
  match parse_value (S (String.length s)) s with
  | Some (v, rest) => if is_empty (skip_ws rest) then Some v else None
  | None => None
  end.

(** What is proved of a reader of values: it consumes input, and it reads
    the same with any fuel above the length of the input. *)
Definition settled (pv : nat -> string -> option (json * string)) (f : nat) : Prop :=
  forall s v rest, pv f s = Some (v, rest) ->
    (String.length rest <= String.length s)%nat
    /\ forall f', (String.length s < f')%nat -> pv f' s = Some (v, rest).

End Json.

(** * Keyboard markup serializers *)

(** A button grid: rows of button labels ([list[list[str]]]). *)
Definition grid : Type := list (list string).

(** Class [InlineKeyboard]: the object is its field [inlineButtons]. *)
Module InlineKeyboard.

(** The text one button adds to [result]. *)
Definition button_text (text : string) : string :=
  "{" +:+ DQ +:+ "text" +:+ DQ +:+ ":" +:+ DQ +:+ text +:+ DQ +:+ ","
    +:+ DQ +:+ "callback_data" +:+ DQ +:+ ":" +:+ DQ +:+ text +:+ DQ +:+ "}".

(** The inner loop [for button in row]. *)
Definition row_loop (result : string) (row : list string) : string :=
  fold_left (fun result button => let text := button in result +:+ button_text text)
            row result.

(** The outer loop [for row in self.inlineButtons]. *)
Definition rows_loop (result : string) (inlineButtons : grid) : string :=
  fold_left (fun result row =>
               let result := result +:+ "[" in
               let result := row_loop result row in
               result +:+ "],")
            inlineButtons result.

Definition __str__ (inlineButtons : grid) : string :=
  let result := "{" +:+ DQ +:+ "inline_keyboard" +:+ DQ +:+ ":[" in
  let result := rows_loop result inlineButtons in
  let result := drop_last result +:+ "]}" in
  result.

End InlineKeyboard.

(** Class [ReplyKeyboard]: the object is its field [keyboardButtons]. *)
Module ReplyKeyboard.

Definition row_loop (result : string) (row : list string) : string :=
  fold_left (fun result button => result +:+ DQ +:+ button +:+ DQ) row result.

Definition rows_loop (result : string) (keyboardButtons : grid) : string :=
  fold_left (fun result row =>
               let result := result +:+ "[" in
               let result := row_loop result row in
               result +:+ "],")
            keyboardButtons result.

Definition __str__ (keyboardButtons : grid) : string :=
  let result := "{" +:+ DQ +:+ "keyboard" +:+ DQ +:+ ":[" in
  let result := rows_loop result keyboardButtons in
  let result := drop_last result +:+ "]" in
  let result := result +:+ "," +:+ DQ +:+ "resize_keyboard" +:+ DQ +:+ ":true,"
                       +:+ DQ +:+ "one_time_keyboard" +:+ DQ +:+ ":true}" in
  result.

End ReplyKeyboard.

(** What the two claims about the serializers expect to read back. *)
Module Markup.
Import Json.

Definition inline_button (label : string) : json :=
  JObj [("text", JStr label); ("callback_data", JStr label)].

Definition inline_markup (G : grid) : json :=
  JObj [("inline_keyboard", JArr (map (fun row => JArr (map inline_button row)) G))].

Definition reply_markup (G : grid) : json :=
  JObj [("keyboard", JArr (map (fun row => JArr (map JStr row)) G));
        ("resize_keyboard", JBool true);
        ("one_time_keyboard", JBool true)].

(** The text of one row, between its brackets. *)
Definition inline_row (row : list string) : string :=
  "[" +:+ concat_str (map InlineKeyboard.button_text row) +:+ "]".

Definition reply_button (button : string) : string := DQ +:+ button +:+ DQ.

Definition reply_row (row : list string) : string :=
  "[" +:+ concat_str (map reply_button row) +:+ "]".

(** Every character of the label may stand for itself in a JSON string. *)
Fixpoint plain_label (s : string) : bool :=
  match s with
  | EmptyString => true
  | String c r => plain c && plain_label r
  end.

(** The grids on which the serializers are exercised below. *)
Definition plain_grid (G : grid) : bool :=
  forallb (fun row => forallb plain_label row) G.

Definition single_buttons (G : grid) : bool :=
    forallb (fun row => (length row <=? 1)%nat) G.
End Markup.

(** * Python values *)
Module Py.

(** The objects that reach the bot: what [json.loads] returns (numbers
    with a fraction or an exponent, read as [float], are outside the
    model) and the two keyboard objects a caller may pass. *)
Inductive pyval : Type :=
| PNone
| PBool (b : bool)
| PInt (n : Z)
| PStr (s : string)
| PList (l : list pyval)
| PDict (d : list (string * pyval))
| PInlineKeyboard (inlineButtons : grid)
| PReplyKeyboard (keyboardButtons : grid).

(** The exceptions that escape the methods of [core.py]: those raised by
    its own statements outside the [try] block, [UnicodeDecodeError] from
    the [decode] in [errorHandler], [OSError] (or one of its subclasses)
    from [open], and [RecursionError] from a call made when the
    interpreter's stack is full. *)
Inductive pyerr : Type :=
| TypeError
| KeyError
| IndexError
| OSError
| UnicodeDecodeError
| RecursionError.

(** [bool(v)], as tested by [if v:] and [not v]. *)
Definition truthy (v : pyval) : bool :=
  match v with
  | PNone => false
  | PBool b => b
  | PInt n => negb (n =? 0)%Z
  | PStr s => negb (Json.is_empty s)
  | PList l => match l with [] => false | _ :: _ => true end
  | PDict d => match d with [] => false | _ :: _ => true end
  | PInlineKeyboard _ => true
  | PReplyKeyboard _ => true
  end.

(** The items of a dict are kept as a list with one entry per key. *)
Fixpoint dict_get {A : Type} (d : list (string * A)) (k : string) : option A :=
  match d with
  | [] => None
  | (k', v) :: d' => if String.eqb k' k then Some v else dict_get d' k
  end.

(** [d.pop(k, None)], for the dict that is left. *)
Fixpoint dict_pop {A : Type} (k : string) (d : list (string * A)) : list (string * A) :=
  match d with
  | [] => []
  | (k', v) :: d' => if String.eqb k' k then d' else (k', v) :: dict_pop k d'
  end.

(** [v[k]] for a string key [k]. *)
Definition getitem_str (v : pyval) (k : string) : pyval + pyerr :=
  match v with
  | PDict d => match dict_get d k with Some x => inl x | None => inr KeyError end
  | _ => inr TypeError
  end.

(** [v[0]]. The first character of a [str] is given by its first byte;
    whatever it is, a [str] cannot be indexed by a key afterwards. *)
Definition getitem_0 (v : pyval) : pyval + pyerr :=
  match v with
  | PList (x :: _) => inl x
  | PList [] => inr IndexError
  | PStr (String c _) => inl (PStr (String c EmptyString))
  | PStr EmptyString => inr IndexError
  | PDict _ => inr KeyError
  | _ => inr TypeError
  end.

(** [v + 1]; [bool] is a subclass of [int]. *)
Definition add_1 (v : pyval) : Z + pyerr :=
  match v with
  | PInt n => inl (n + 1)%Z
  | PBool b => inl (Z.b2z b + 1)%Z
  | _ => inr TypeError
  end.

End Py.

(** * Class [TelegramBot] *)
Module TelegramBot.
Import Py.

(** The line feed, written [\n] in the source. *)
Definition NL : string := String "010"%char EmptyString.

(** ** The object and the world around it *)

(** The attributes set by [__init__]. [LOGFILEPATH] is [None] for the
    default [0] of the source and [Some path] for a string. *)
Record t : Type := Build {
  URL : string;
  TIMEOUT : Z;
  ADMINCHATID : Z;
  LOGFILEPATH : option string;
  offset : Z
}.

Definition __init__ (TOKEN : string) (timeout adminchatid : Z)
           (logfilepath : option string) : t :=
  {| URL := "https://api.telegram.org/bot" +:+ TOKEN +:+ "/";
     TIMEOUT := timeout;
     ADMINCHATID := adminchatid;
     LOGFILEPATH := logfilepath;
     offset := 0 |}.

(** The defaults of the optional arguments. *)
Definition default_TIMEOUT : Z := 3600.
Definition default_ADMINCHATID : Z := 0.
Definition default_LOGFILEPATH : option string := None.

(** [if self.ADMINCHATID:] and [if self.LOGFILEPATH:]. *)
Definition admin_set (self : t) : bool := negb (ADMINCHATID self =? 0)%Z.

Definition log_set (self : t) : bool :=
  match LOGFILEPATH self with
  | Some path => negb (Json.is_empty path)
  | None => false
  end.

(** A request handed to [urlopen]: the target and the form fields, before
    [urlencode] turns them into the body. *)
Record request : Type := Request {
  target : string;
  fields : list (string * pyval)
}.

(** An exception other than [HTTPError] raised inside the [try] block, as
    error handling sees it: [str(error)], [repr(error)], the text of
    [str(error.__traceback__.tb_frame)], and whether [urlopen] had already
    returned, so that the local [connection] was bound. *)
Record exn : Type := Exn {
  exn_str : string;
  exn_repr : string;
  exn_frame : string;
  exn_connected : bool
}.

(** What the [try] block of [sendRequest] can end in: an exception, an
    [HTTPError] (with its [filename] and the bytes that its [read()]
    returns), or the object that [loads] made of the response body. *)
Inductive outcome : Type :=
| Raises (e : exn)
| RaisesHTTPError (filename body : string)
| Loads (response : pyval).

(** The calls between a failed request and the request of the notification
    that reports it: [errorHandler], [sendMsgToAdmin], [sendMsg] and
    [sendRequest] after an exception, [sendMsgToAdmin], [sendMsg] and
    [sendRequest] after an envelope, where [sendRequest] calls
    [sendMsgToAdmin] itself. *)
Definition calls (o : outcome) : nat :=
  match o with
  | Loads _ => 3
  | _ => 4
  end.

(** The values of the local variables of [sendRequest], as found in the
    [f_locals] of its frame. *)
Inductive local : Type :=
| LSelf (self : t)
| LStr (s : string)
| LBytes (b : string)
| LRequest (full_url body : string)
| LConnection
| LError (e : exn).

(** The exception object handed to [errorHandler]: an [HTTPError] with its
    [filename] and the bytes of its body, or any other exception together
    with the [f_locals] of the frame at the head of its traceback. *)
Inductive error : Type :=
| HTTPError (filename body : string)
| OtherError (e : exn) (f_locals : list (string * local)).

(** What the source relies on and is not its own. The library functions
    [bytes(urlencode(data), encoding = UTF-8)], the built-in [repr] on the
    locals, [time.asctime()] as a function of the number of earlier calls,
    and [bytes.decode(utf-8)], which is [None] where it raises
    [UnicodeDecodeError]. And the interpreter's stack: the request of a
    facade method runs with [4 + stack] frames left for the calls of the
    class that are nested in it, the room for one notification at the
    least. The frames that the library calls of the innermost request
    need are taken off beforehand. *)
Class Runtime : Type := {
  urlencode : list (string * pyval) -> string;
  repr : local -> string;
  asctime : nat -> string;
  decode : string -> option string;
  stack : nat
}.

(** The state threaded through the methods: the object itself, the
    requests issued so far, the file system, that is the content of the
    files and the paths that [open] refuses (a directory that is missing,
    a file that may not be written), and the clock ticks. *)
Record state : Type := State {
  self : t;
  sent : list request;
  files : gmap string string;
  denied : gset string;
  ticks : nat
}.

(** How a call ends: it returns, an exception escapes it, or the script of
    outcomes is exhausted while a request is in flight. *)
Inductive res (A : Type) : Type :=
| Ret (a : A)
| Raise (e : pyerr)
| NoReply.
Arguments Ret {A} a.
Arguments Raise {A} e.
Arguments NoReply {A}.

(** A finished call: its result, the outcomes not yet consumed, the state. *)
Definition run (A : Type) : Type := res A * list outcome * state.

Definition bind {A B : Type} (m : run A)
           (k : A -> list outcome -> state -> run B) : run B :=
  match m with
  | (Ret a, rest, s) => k a rest s
  | (Raise e, rest, s) => (Raise e, rest, s)
  | (NoReply, rest, s) => (NoReply, rest, s)
  end.

Definition set_offset (n : Z) (s : state) : state :=
  {| self := {| URL := URL (self s); TIMEOUT := TIMEOUT (self s);
                ADMINCHATID := ADMINCHATID (self s);
                LOGFILEPATH := LOGFILEPATH (self s); offset := n |};
     sent := sent s; files := files s; denied := denied s; ticks := ticks s |}.

Definition issue (r : request) (s : state) : state :=
  {| self := self s; sent := sent s ++ [r]; files := files s;
     denied := denied s; ticks := ticks s |}.

Definition tick (s : state) : state :=
  {| self := self s; sent := sent s; files := files s;
     denied := denied s; ticks := S (ticks s) |}.

(** Whether [open(path, a)] raises [OSError]: the empty path, and the
    paths that the file system refuses. *)
Definition refused (path : string) (s : state) : bool :=
  Json.is_empty path || bool_decide (path ∈ denied s).

(** [open(path, a)] when it succeeds: the file exists afterwards, with
    what it held. *)
Definition open_append (path : string) (s : state) : state :=
  {| self := self s; sent := sent s;
     files := <[path := default EmptyString (files s !! path)]> (files s);
     denied := denied s; ticks := ticks s |}.

(** [file.writelines(text)] on a file opened for appending. *)
Definition append (path text : string) (s : state) : state :=
  {| self := self s; sent := sent s;
     files := <[path := default EmptyString (files s !! path) +:+ text]> (files s);
     denied := denied s; ticks := ticks s |}.

Section Methods.
Context {RT : Runtime}.

(** [str(tb)] for a dict of locals: the dict display. *)
Definition str_locals (tb : list (string * local)) : string :=
  "{" +:+ join ", " (map (fun '(k, v) => "'" +:+ k +:+ "': " +:+ repr v) tb) +:+ "}".

(** The locals of the frame of [sendRequest] when its [except] clause
    runs: [data] has been rebound to the encoded body. *)
Definition frame_locals (self : t) (method : string)
           (data : list (string * pyval)) (e : exn) : list (string * local) :=
  [("self", LSelf self); ("method", LStr method);
   ("data", LBytes (urlencode data));
   ("newRequest", LRequest (URL self +:+ method) (urlencode data))]
  ++ (if exn_connected e then [("connection", LConnection)] else [])
  ++ [("error", LError e)].

(** [writeLog]. The file is opened first, and [OSError] escapes when
    [open] refuses the path; the text is then built from left to right, so
    [asctime()] is called before [msg] is added, and adding a [msg] that is
    not a [str] raises [TypeError] with nothing written. The class calls it
    only when [LOGFILEPATH] is set; a direct call without a path fails in
    [open], which is all that is modelled of it. *)
Definition writeLog (msg : pyval) (s : state) : res unit * state :=
  match LOGFILEPATH (self s) with
  | None => (Raise OSError, s)
  | Some path =>
    if refused path s then (Raise OSError, s)
    else
      let s := open_append path s in
      let stamp := asctime (ticks s) in
      let s := tick s in
      match msg with
      | PStr text =>
        (Ret tt, append path ("----------" +:+ NL +:+ stamp +:+ NL +:+ text +:+ NL) s)
      | _ => (Raise TypeError, s)
      end
  end.

(** The two statements that follow every failure in the source:
    [if self.ADMINCHATID: self.sendMsgToAdmin(msg)] and
    [if self.LOGFILEPATH: self.writeLog(msg)]. The bound method
    [sendMsgToAdmin] is a parameter, for the recursion below. *)
Definition report (sendMsgToAdmin : pyval -> state -> run pyval)
           (rest : list outcome) (msg : pyval) (s : state) : run unit :=
  bind (if admin_set (self s) then sendMsgToAdmin msg s else (Ret PNone, rest, s))
       (fun _ rest s =>
          if log_set (self s)
          then let '(r, s) := writeLog msg s in (r, rest, s)
          else (Ret tt, rest, s)).

(** The body of [errorHandler]. For an [HTTPError] the body is decoded
    while the message is built, before anything is reported:
    [UnicodeDecodeError] escapes when the bytes are not UTF-8. *)
Definition errorHandler_with (sendMsgToAdmin : pyval -> state -> run pyval)
           (rest : list outcome) (err : error) (s : state) : run unit :=
  match err with
  | HTTPError filename body =>
    match decode body with
    | None => (Raise UnicodeDecodeError, rest, s)
    | Some text =>
      let msg := filename +:+ NL +:+ text in
      report sendMsgToAdmin rest (PStr msg) s
    end
  | OtherError e f_locals =>
    let tb := f_locals in
    let tb := dict_pop "chatID" tb in
    let tb := dict_pop "text" tb in
    let tb := dict_pop "keyboard" tb in
    let tb := dict_pop "url" tb in
    let msg := exn_str e +:+ NL +:+ exn_frame e +:+ NL +:+ str_locals tb in
    report sendMsgToAdmin rest (PStr msg) s
  end.

(** [sendRequest] running where the stack has [room] frames left for the
    calls nested in it: one outcome of the script answers the request; the
    notifications that error handling sends consume the next ones, each
    with the room that is left. Without room for the calls of a
    notification [RecursionError] is raised; the calls are made from an
    [except] clause, or after the [try] statement, and nothing catches
    it. *)
Fixpoint sendRequest_within (room : nat) (script : list outcome) (method : string)
         (data : list (string * pyval)) (s : state) {struct script} : run pyval :=
  let newRequest := Request (URL (self s) +:+ method) data in
  let s := issue newRequest s in
  match script with
  | [] => (NoReply, [], s)
  | o :: rest =>
    let sendMsgToAdmin := fun (msg : pyval) (s : state) =>
      if (calls o <=? room)%nat
      then sendRequest_within (room - calls o) rest "sendMessage"
                              [("chat_id", PInt (ADMINCHATID (self s))); ("text", msg)] s
      else (Raise RecursionError, rest, s) in
    match o with
    | Raises e =>
      bind (errorHandler_with sendMsgToAdmin rest
              (OtherError e (frame_locals (self s) method data e)) s)
           (fun _ rest s => (Ret PNone, rest, s))
    | RaisesHTTPError filename body =>
      bind (errorHandler_with sendMsgToAdmin rest (HTTPError filename body) s)
           (fun _ rest s => (Ret PNone, rest, s))
    | Loads response =>
      match getitem_str response "ok" with
      | inr e => (Raise e, rest, s)
      | inl ok =>
        if negb (truthy ok) then
          bind (report sendMsgToAdmin rest response s)
               (fun _ rest s => (Ret PNone, rest, s))
        else
          match getitem_str response "result" with
          | inr e => (Raise e, rest, s)
          | inl result => (Ret result, rest, s)
          end
      end
    end
  end.

(** [sendMsgToAdmin] as it is called for the failure [o] of a request that
    runs with the given room. *)
Definition sendMsgToAdmin_within (room : nat) (o : outcome) (script : list outcome)
           (msg : pyval) (s : state) : run pyval :=
  if (calls o <=? room)%nat
  then sendRequest_within (room - calls o) script "sendMessage"
                          [("chat_id", PInt (ADMINCHATID (self s))); ("text", msg)] s
  else (Raise RecursionError, script, s).

(** [sendRequest] as the facade methods call it. *)
Definition sendRequest (script : list outcome) (method : string)
           (data : list (string * pyval)) (s : state) : run pyval :=
  sendRequest_within (4 + stack) script method data s.

Definition sendMsg (script : list outcome) (chatID text : pyval) (s : state) : run pyval :=
  let data := [("chat_id", chatID); ("text", text)] in
  sendRequest script "sendMessage" data s.

Definition sendMsgToAdmin (script : list outcome) (msg : pyval) (s : state) : run pyval :=
  sendMsg script (PInt (ADMINCHATID (self s))) msg s.

Definition sendKeyboard (script : list outcome) (chatID text keyboard : pyval)
           (s : state) : run pyval :=
  let data := [("chat_id", chatID); ("text", text); ("reply_markup", keyboard)] in
  sendRequest script "sendMessage" data s.

Definition deletMessage (script : list outcome) (chatID message_id : pyval)
           (s : state) : run pyval :=
  let data := [("chat_id", chatID); ("message_id", message_id)] in
  sendRequest script "deleteMessage" data s.

(** [errorHandler] as [sendRequest] calls it for the exception [o] when it
    runs with the given room, and as a caller of the class would. *)
Definition errorHandler_within (room : nat) (o : outcome) (script : list outcome)
           (err : error) (s : state) : run unit :=
  errorHandler_with (sendMsgToAdmin_within room o script) script err s.

Definition errorHandler (script : list outcome) (err : error) (s : state) : run unit :=
  errorHandler_with (sendMsgToAdmin script) script err s.

Definition getUpdate (script : list outcome) (s : state) : run pyval :=
  let data := [("offset", PInt (offset (self s))); ("limit", PInt 1);
               ("timeout", PInt (TIMEOUT (self s)))] in
  bind (sendRequest script "getUpdates" data s)
       (fun response rest s =>
          if truthy response then
            match getitem_0 response with
            | inr e => (Raise e, rest, s)
            | inl update =>
              match getitem_str update "update_id" with
              | inr e => (Raise e, rest, s)
              | inl update_id =>
                match add_1 update_id with
                | inr e => (Raise e, rest, s)
                | inl n => (Ret response, rest, set_offset n s)
                end
              end
            end
          else (Ret response, rest, s)).

End Methods.
End TelegramBot.

(** * Callers of the bot

    What the claims say about sequences of calls and about the outcomes of
    the network is phrased with the definitions of this module. *)
Module Session.
Import Py TelegramBot.

(** One call to a facade operation. *)
Inductive op : Type :=
| GetUpdate
| SendMsg (chatID text : pyval)
| SendMsgToAdmin (msg : pyval)
| SendKeyboard (chatID text keyboard : pyval)
| DeletMessage (chatID message_id : pyval).

(** What a caller sees of one call: the state before it, how it ended and
    the state after it. *)
Record entry : Type := Entry {
  done : op;
  before : state;
  result : res pyval;
  after : state
}.

(** A failed request: an exception in the [try] block, or an envelope whose
    [ok] is false. *)
Definition is_failure (o : outcome) : bool :=
  match o with
  | Raises _ => true
  | RaisesHTTPError _ _ => true
  | Loads response =>
    match getitem_str response "ok" with
    | inl ok => negb (truthy ok)
    | inr _ => false
    end
  end.


(** The frames that the notifications of a chain of failures take, each
    nested in the one before it. *)
Definition stack_use (failures : list outcome) : nat :=
  fold_right (fun o n => (calls o + n)%nat) 0%nat failures.


(** The update id a poll returned, when it returned an update. *)
Definition first_update_id (r : res pyval) : option Z :=
  match r with
  | Ret (PList (PDict d :: _)) =>
    match dict_get d "update_id" with
    | Some (PInt u) => Some u
    | _ => None
    end
  | _ => None
  end.

Definition returned (e : entry) : option Z :=
  match done e with
  | GetUpdate => first_update_id (result e)
  | _ => None
  end.

(** The update ids returned by the polls of a log, in order. *)
Definition returned_ids (log : list entry) : list Z := omap returned log.

(** The greatest of a non-empty list of integers. *)
Definition maximum (x : Z) (l : list Z) : Z := fold_left Z.max l x.

(** A poll honours the offset when the update it returns, if any, has an
    integer id that is not below the cursor it was asked with. *)
Definition honours_offset (e : entry) : Prop :=
  match done e with
  | GetUpdate =>
    forall response, result e = Ret response -> truthy response = true ->
      exists u, first_update_id (result e) = Some u
                /\ (offset (self (before e)) <= u)%Z
  | _ => True
  end.

(** The reply to a successful poll: an envelope whose [ok] is true and
    whose [result] is the empty list, or a list whose first element is an
    update with the given id. *)
Inductive poll : Type :=
| NoUpdate
| Update (update_id : Z).

Definition replies (p : poll) (o : outcome) : Prop :=
  exists d ok result,
    o = Loads (PDict d)
    /\ dict_get d "ok" = Some ok /\ truthy ok = true
    /\ dict_get d "result" = Some result
    /\ match p with
       | NoUpdate => result = PList []
       | Update u =>
         exists upd more, result = PList (PDict upd :: more)
                          /\ dict_get upd "update_id" = Some (PInt u)
       end.

(** The cursor after each poll of a sequence, from the cursor before it. *)
Fixpoint cursors (cursor : Z) (ps : list poll) : list Z :=
  match ps with
  | [] => []
  | NoUpdate :: ps' => cursor :: cursors cursor ps'
  | Update u :: ps' => (u + 1)%Z :: cursors (u + 1)%Z ps'
  end.

(** The request of a poll asked with the given cursor. *)
Definition poll_request (self : t) (cursor : Z) : request :=
  Request (URL self +:+ "getUpdates")
          [("offset", PInt cursor); ("limit", PInt 1); ("timeout", PInt (TIMEOUT self))].

(** A request to one of the three methods of the remote API that the class
    uses. *)
Definition api_request (self : t) (r : request) : Prop :=
  target r = URL self +:+ "getUpdates"
  \/ target r = URL self +:+ "sendMessage"
  \/ target r = URL self +:+ "deleteMessage".

(** The names that [errorHandler] removes from the captured locals. *)
Definition redacted : list string := ["chatID"; "text"; "keyboard"; "url"].

Section WithRuntime.
Context {RT : Runtime}.

(** A failure that gets reported: an exception in the [try] block, an
    [HTTPError] whose body decodes, or an envelope whose [ok] is false. *)
Definition reported (o : outcome) : bool :=
  match o with
  | RaisesHTTPError _ body =>
    match decode body with Some _ => true | None => false end
  | _ => is_failure o
  end.


Definition perform (o : op) (script : list outcome) (s : state) : run pyval :=
  match o with
  | GetUpdate => getUpdate script s
  | SendMsg chatID text => sendMsg script chatID text s
  | SendMsgToAdmin msg => sendMsgToAdmin script msg s
  | SendKeyboard chatID text keyboard => sendKeyboard script chatID text keyboard s
  | DeletMessage chatID message_id => deletMessage script chatID message_id s
  end.

(** A caller that makes the calls in order, whatever each one ends in. *)
Fixpoint perform_all (ops : list op) (script : list outcome) (s : state) : list entry :=
  match ops with
  | [] => []
  | o :: ops' =>
    let '(r, rest, s') := perform o script s in
    Entry o s r s' :: perform_all ops' rest s'
  end.

(** The message that error handling reports for an exception; for an
    [HTTPError], when its body decodes. *)
Definition error_msg (err : error) : string :=
  match err with
  | HTTPError filename body => filename +:+ NL +:+ default EmptyString (decode body)
  | OtherError e f_locals =>
    exn_str e +:+ NL +:+ exn_frame e +:+ NL
      +:+ str_locals (dict_pop "url" (dict_pop "keyboard" (dict_pop "text"
                        (dict_pop "chatID" f_locals))))
  end.

(** The message reported for the failure [o] of the request
    [method], [data], when the failure is reported. *)
Definition failure_msg (self : t) (method : string) (data : list (string * pyval))
           (o : outcome) : pyval :=
  match o with
  | Raises e => PStr (error_msg (OtherError e (frame_locals self method data e)))
  | RaisesHTTPError filename body => PStr (error_msg (HTTPError filename body))
  | Loads response => response
  end.

(** The notification sent to the administrator with the message [msg]. *)
Definition notification (self : t) (msg : pyval) : request :=
  Request (URL self +:+ "sendMessage")
          [("chat_id", PInt (ADMINCHATID self)); ("text", msg)].

(** The notifications caused by a request whose outcome, and the outcomes
    of the notifications after it, are the given failures. *)
Fixpoint notifications (self : t) (method : string) (data : list (string * pyval))
         (failures : list outcome) : list request :=
  match failures with
  | [] => []
  | o :: more =>
    let msg := failure_msg self method data o in
    notification self msg
      :: notifications self "sendMessage"
           [("chat_id", PInt (ADMINCHATID self)); ("text", msg)] more
  end.




End WithRuntime.
End Session.

(** * A concrete runtime

    The library functions as CPython computes them, for the worked
    scenarios: [urlencode] is exact on [str], [int], [bool], [None] and
    keyboard values; the display of a list or a dict is exact when its
    strings are printable ASCII without quotes or backslashes; object
    addresses and the clock are fixed. *)
Module Reference.
Import Py TelegramBot.

Definition hex_char (n : N) : ascii :=
  if (n <? 10)%N then ascii_of_N (48 + n) else ascii_of_N (55 + n).

(** [quote_plus] on one byte: letters, digits and [_.-~] are kept, the
    space becomes a plus sign, any other byte is percent-encoded. *)
Definition quote_byte (c : ascii) (tail : string) : string :=
  let n := N_of_ascii c in
  if ((48 <=? n) && (n <=? 57) || (65 <=? n) && (n <=? 90) || (97 <=? n) && (n <=? 122)
      || (n =? 95) || (n =? 46) || (n =? 45) || (n =? 126))%N
  then String c tail
  else if (n =? 32)%N then String "+"%char tail
  else String "%"%char (String (hex_char (n / 16)) (String (hex_char (n mod 16)) tail)).

Fixpoint quote_plus (s : string) : string :=
  match s with
  | EmptyString => EmptyString
  | String c r => quote_byte c (quote_plus r)
  end.

Definition str_int (n : Z) : string := NilZero.string_of_int (Z.to_int n).

(** [repr(v)] for what [loads] returns. *)
Fixpoint repr_val (v : pyval) : string :=
  match v with
  | PNone => "None"
  | PBool true => "True"
  | PBool false => "False"
  | PInt n => str_int n
  | PStr s => "'" +:+ s +:+ "'"
  | PList l => "[" +:+ join ", " (map repr_val l) +:+ "]"
  | PDict d =>
    "{" +:+ join ", " (map (fun kv => "'" +:+ fst kv +:+ "': " +:+ repr_val (snd kv)) d) +:+ "}"
  | PInlineKeyboard _ => "<core.InlineKeyboard object at 0x7f3a5c0d2e50>"
  | PReplyKeyboard _ => "<core.ReplyKeyboard object at 0x7f3a5c0d2f10>"
  end.

(** [str(v)]: a [str] is itself, a keyboard is its [__str__]. *)
Definition str_val (v : pyval) : string :=
  match v with
  | PStr s => s
  | PInlineKeyboard g => InlineKeyboard.__str__ g
  | PReplyKeyboard g => ReplyKeyboard.__str__ g
  | _ => repr_val v
  end.

Definition urlencode (data : list (string * pyval)) : string :=
  join "&" (map (fun kv => quote_plus (fst kv) +:+ "=" +:+ quote_plus (str_val (snd kv))) data).

Definition repr (v : local) : string :=
  match v with
  | LSelf _ => "<core.TelegramBot object at 0x7f3a5c0d2b80>"
  | LStr s => "'" +:+ s +:+ "'"
  | LBytes b => "b'" +:+ b +:+ "'"
  | LRequest _ _ => "<urllib.request.Request object at 0x7f3a5c0d2c40>"
  | LConnection => "<http.client.HTTPResponse object at 0x7f3a5c0d2d00>"
  | LError e => exn_repr e
  end.

Definition asctime (n : nat) : string := "Tue Nov  3 16:51:00 2026".

(** The first byte of a UTF-8 sequence: the number of bytes that follow it
    and the bounds of the first of them. Overlong forms, surrogates and
    code points above U+10FFFF are refused. *)
Definition utf8_lead (n : N) : option (nat * N * N) :=
  if (n <=? 127)%N then Some (0%nat, 128, 191)%N
  else if ((194 <=? n) && (n <=? 223))%N then Some (1%nat, 128, 191)%N
  else if (n =? 224)%N then Some (2%nat, 160, 191)%N
  else if (n =? 237)%N then Some (2%nat, 128, 159)%N
  else if ((225 <=? n) && (n <=? 239))%N then Some (2%nat, 128, 191)%N
  else if (n =? 240)%N then Some (3%nat, 144, 191)%N
  else if (n =? 244)%N then Some (3%nat, 128, 143)%N
  else if ((241 <=? n) && (n <=? 243))%N then Some (3%nat, 128, 191)%N
  else None.

(** Whether the bytes are UTF-8, when [due] more bytes of the current
    sequence are to come and the next one lies between [low] and [high]. *)
Fixpoint utf8_from (due : nat) (low high : N) (b : string) : bool :=
  match b with
  | EmptyString => match due with O => true | S _ => false end
  | String c r =>
    let n := N_of_ascii c in
    match due with
    | O =>
      match utf8_lead n with
      | Some (k, lo, hi) => utf8_from k lo hi r
      | None => false
      end
    | S k => (low <=? n)%N && (n <=? high)%N && utf8_from k 128 191 r
    end
  end.

(** [b.decode(utf-8)]: a [str] is kept as the bytes of its UTF-8 form. *)
Definition decode (b : string) : option string :=
  if utf8_from 0 128 191 b then Some b else None.

(** A stack with 989 frames for the notifications: with the default limit
    of 1000 frames, CPython 3.11 lets a call made from the top level of a
    script nest 247 notifications of exceptions, or 329 of negative
    envelopes, before [RecursionError] escapes. *)
Definition stack : nat := 985.

Definition runtime : Runtime :=
  {| TelegramBot.urlencode := urlencode;
     TelegramBot.repr := repr;
     TelegramBot.asctime := asctime;
     TelegramBot.decode := decode;
     TelegramBot.stack := stack |}.

(** A bot with an administrator chat, one with a log file, one with both,
    and one with neither. *)
Definition token : string := "110201543:AAHdqTcvCH1vGWJxfSeofSAs0K5PALDsaw".
Definition bot_plain : t := __init__ token default_TIMEOUT default_ADMINCHATID default_LOGFILEPATH.
Definition bot_admin : t := __init__ token default_TIMEOUT 777 default_LOGFILEPATH.
Definition bot_log : t := __init__ token default_TIMEOUT default_ADMINCHATID (Some "bot.log").
Definition bot_both : t := __init__ token default_TIMEOUT 777 (Some "bot.log").

(** The state right after construction, on an empty file system where
    every file can be created, and on one where [bot.log] cannot. *)
Definition fresh (b : t) : state :=
  {| self := b; sent := []; files := ∅; denied := ∅; ticks := 0 |}.

Definition read_only (b : t) : state :=
  {| self := b; sent := []; files := ∅; denied := {["bot.log"]}; ticks := 0 |}.

(** An error body in Latin-1: the byte 233, e with an acute accent, is not
    UTF-8 on its own. *)
Definition latin1_body : string :=
  "Passerelle incorrecte: d" +:+ String (ascii_of_N 233) "lai".

(** A connection failure raised by [urlopen]. *)
Definition unreachable : exn :=
  {| exn_str := "<urlopen error [Errno 101] Network is unreachable>";
     exn_repr := "URLError(OSError(101, 'Network is unreachable'))";
     exn_frame := "<frame at 0x7f3a5c1b4040, file '/srv/bot/core.py', line 33, code sendRequest>";
     exn_connected := false |}.

(** Response envelopes. *)
Definition ok_envelope (result : pyval) : pyval :=
  PDict [("ok", PBool true); ("result", result)].

Definition update (update_id : Z) : pyval :=
  PDict [("update_id", PInt update_id)].

Definition chat_not_found : pyval :=
    PDict [("ok", PBool false); ("error_code", PInt 400);
           ("description", PStr "Bad Request: chat not found")].
(** The data of a text message to the chat 42. *)
Definition hello : list (string * Py.pyval) :=
  [("chat_id", Py.PInt 42); ("text", Py.PStr "hello")].

(** The grid of the docstrings of the two keyboard classes. *)
Definition docstring_grid : grid :=
  [["First button of the first row"; "Second button of the first row"];
   ["First button of the second row"]].

End Reference.

(** * Facts about strings *)

Lemma append_nil_l (t : string) : EmptyString +:+ t = t.
Proof. reflexivity. Qed.

Lemma append_cons (c : ascii) (s t : string) : String c s +:+ t = String c (s +:+ t).
Proof. reflexivity. Qed.

Lemma append_nil_r (s : string) : s +:+ EmptyString = s.
Proof. induction s as [|c s IH]; [reflexivity|]. rewrite append_cons, IH. reflexivity. Qed.

Lemma append_assoc (a b c : string) : (a +:+ b) +:+ c = a +:+ (b +:+ c).
Proof.
  induction a as [|x a IH]; [reflexivity|].
  rewrite !append_cons, IH. reflexivity.
Qed.

Lemma length_append (a b : string) :
  String.length (a +:+ b) = (String.length a + String.length b)%nat.
Proof.
  induction a as [|x a IH]; [reflexivity|].
  rewrite append_cons. cbn [String.length]. rewrite IH. reflexivity.
Qed.

(** Strings are brought to the form [String c1 (String c2 (... +:+ rest))]. *)
Ltac norm_str :=
  repeat (rewrite append_assoc || rewrite append_cons || rewrite append_nil_l).

Lemma drop_last_snoc (s : string) (c : ascii) :
  drop_last (s +:+ String c EmptyString) = s.
Proof.
  induction s as [|x s IH]; [reflexivity|].
  rewrite append_cons. cbn [drop_last]. rewrite IH.
  destruct s; reflexivity.
Qed.

Lemma fold_left_append {A : Type} (f : A -> string) (l : list A) (acc : string) :
  fold_left (fun result x => result +:+ f x) l acc = acc +:+ concat_str (map f l).
Proof.
  revert acc. induction l as [|x l IH]; intros acc; cbn [fold_left map concat_str].
  - now rewrite append_nil_r.
  - rewrite IH, append_assoc. reflexivity.
Qed.

(** Rows that each end in a separator, minus the last separator, are the
    rows joined by the separator. *)
Lemma drop_last_separated (acc : string) (c : ascii) (rows : list string) :
  rows <> [] ->
  drop_last (acc +:+ concat_str (map (fun r => r +:+ String c EmptyString) rows))
  = acc +:+ join (String c EmptyString) rows.
Proof.
  intros Hne. revert acc. induction rows as [|r rows IH]; [congruence|]. intros acc.
  destruct rows as [|r' rows].
  - cbn [map concat_str join]. rewrite append_nil_r, <- append_assoc.
    apply drop_last_snoc.
  - change (join (String c EmptyString) (r :: r' :: rows))
      with (r +:+ String c EmptyString +:+ join (String c EmptyString) (r' :: rows)).
    change (concat_str (map (fun r0 => r0 +:+ String c EmptyString) (r :: r' :: rows)))
      with ((r +:+ String c EmptyString)
              +:+ concat_str (map (fun r0 => r0 +:+ String c EmptyString) (r' :: rows))).
    rewrite <- !(append_assoc acc), <- (append_assoc (acc +:+ r)).
    rewrite IH by congruence. rewrite !append_assoc. reflexivity.
Qed.

(** * Facts about the text of the keyboards *)
Section KeyboardText.
Import Markup.

Lemma inline_rows_loop (acc : string) (G : grid) :
  InlineKeyboard.rows_loop acc G
  = acc +:+ concat_str (map (fun r => r +:+ ",") (map inline_row G)).
Proof.
  unfold InlineKeyboard.rows_loop. revert acc.
  induction G as [|row G IH]; intros acc; cbn [fold_left map concat_str].
  - now rewrite append_nil_r.
  - rewrite IH. unfold InlineKeyboard.row_loop.
    rewrite (fold_left_append InlineKeyboard.button_text).
    unfold inline_row. now rewrite !append_assoc.
Qed.

Lemma inline_str_nonempty (G : grid) :
  G <> [] ->
  InlineKeyboard.__str__ G
  = ("{" +:+ DQ +:+ "inline_keyboard" +:+ DQ +:+ ":[")
      +:+ join "," (map inline_row G) +:+ "]}".
Proof.
  intros Hne. unfold InlineKeyboard.__str__. cbv zeta.
  rewrite inline_rows_loop, drop_last_separated.
  - now rewrite !append_assoc.
  - destruct G; [congruence | discriminate].
Qed.

Lemma reply_rows_loop (acc : string) (G : grid) :
  ReplyKeyboard.rows_loop acc G
  = acc +:+ concat_str (map (fun r => r +:+ ",") (map reply_row G)).
Proof.
  unfold ReplyKeyboard.rows_loop. revert acc.
  induction G as [|row G IH]; intros acc; cbn [fold_left map concat_str].
  - now rewrite append_nil_r.
  - rewrite IH. unfold ReplyKeyboard.row_loop.
    rewrite (fold_left_append reply_button).
    unfold reply_row. now rewrite !append_assoc.
Qed.

Lemma reply_str_nonempty (G : grid) :
  G <> [] ->
  ReplyKeyboard.__str__ G
  = ("{" +:+ DQ +:+ "keyboard" +:+ DQ +:+ ":[")
      +:+ join "," (map reply_row G)
      +:+ "]," +:+ DQ +:+ "resize_keyboard" +:+ DQ +:+ ":true,"
      +:+ DQ +:+ "one_time_keyboard" +:+ DQ +:+ ":true}".
Proof.
  intros Hne. unfold ReplyKeyboard.__str__. cbv zeta.
  rewrite reply_rows_loop, drop_last_separated.
  - now rewrite !append_assoc.
  - destruct G; [congruence | discriminate].
Qed.
End KeyboardText.

(** * Facts about reading JSON text *)
Section Reading.
Import Json Markup.

Lemma parse_chars_plain (s rest : string) :
  plain_label s = true ->
  parse_chars (s +:+ String dquote rest) = Some (s, rest).
Proof.
  induction s as [|c s IH]; intros H; [reflexivity|].
  cbn [plain_label] in H. apply andb_true_iff in H as [Hc Hs].
  rewrite append_cons. cbn [parse_chars]. unfold plain in Hc.
  destruct (code c =? 34)%N, (code c =? 92)%N, (code c <? 32)%N; try discriminate.
  now rewrite (IH Hs).
Qed.

Lemma parse_value_string (f : nat) (s rest : string) :
  plain_label s = true ->
  parse_value (S f) (String dquote (s +:+ String dquote rest)) = Some (JStr s, rest).
Proof.
  intros H.
  change (parse_value (S f) (String dquote (s +:+ String dquote rest)))
    with (match parse_chars (s +:+ String dquote rest) with
          | Some (v, r) => Some (JStr v, r)
          | None => None
          end).
  now rewrite parse_chars_plain.
Qed.

Lemma parse_value_true (f : nat) (r : string) :
  parse_value (S f) ("true" +:+ r) = Some (JBool true, r).
Proof. reflexivity. Qed.

Lemma parse_value_empty_array (f : nat) (r : string) :
  parse_value (S f) ("[]" +:+ r) = Some (JArr [], r).
Proof. reflexivity. Qed.

(** An array whose first element starts right after the bracket with the
    character [d], which is neither whitespace nor the closing bracket. *)
Lemma parse_value_array (f : nat) (d : ascii) (r : string) :
  is_ws d = false -> (code d =? 93)%N = false ->
  parse_value (S f) (String "[" (String d r))
  = match parse_elements (parse_value f) f (String d r) with
    | Some (vs, rest) => Some (JArr vs, rest)
    | None => None
    end.
Proof.
  intros Hws Hd.
  change (parse_value (S f) (String "[" (String d r)))
    with (match skip_ws (String d r) with
          | EmptyString => None
          | String d' r' =>
            if (code d' =? 93)%N then Some (JArr [], r')
            else match parse_elements (parse_value f) f (String d r) with
                 | Some (vs, rest) => Some (JArr vs, rest)
                 | None => None
                 end
          end).
  cbn [skip_ws]. now rewrite Hws, Hd.
Qed.

(** An object whose first member starts right after the brace. *)
Lemma parse_value_object (f : nat) (r : string) :
  parse_value (S f) (String "{" (String dquote r))
  = match parse_members (parse_value f) f (String dquote r) with
    | Some (ms, rest) => Some (JObj ms, rest)
    | None => None
    end.
Proof. reflexivity. Qed.

Section Steps.
Variable pv : string -> option (json * string).

Lemma parse_elements_more (n : nat) (s r' : string) (v : json) :
  pv s = Some (v, String "," r') ->
  parse_elements pv (S n) s
  = match parse_elements pv n r' with
    | Some (vs, rest) => Some (v :: vs, rest)
    | None => None
    end.
Proof. intros H. cbn [parse_elements]. rewrite H. reflexivity. Qed.

Lemma parse_elements_last (n : nat) (s r' : string) (v : json) :
  pv s = Some (v, String "]" r') ->
  parse_elements pv (S n) s = Some ([v], r').
Proof. intros H. cbn [parse_elements]. rewrite H. reflexivity. Qed.

Lemma parse_members_key (n : nat) (k r : string) :
  plain_label k = true ->
  parse_members pv (S n) (String dquote (k +:+ String dquote (String ":" r)))
  = match pv r with
    | None => None
    | Some (v, r3) =>
      match skip_ws r3 with
      | EmptyString => None
      | String d r4 =>
        if (code d =? 44)%N then
          match parse_members pv n r4 with
          | Some (ms, rest) => Some ((k, v) :: ms, rest)
          | None => None
          end
        else if (code d =? 125)%N then Some ([(k, v)], r4)
        else None
      end
    end.
Proof.
  intros H. cbn [parse_members skip_ws].
  change (is_ws dquote) with false. cbv iota.
  change (code dquote =? 34)%N with true. cbv iota.
  rewrite parse_chars_plain by exact H. reflexivity.
Qed.

Lemma parse_members_more (n : nat) (k r r' : string) (v : json) :
  plain_label k = true -> pv r = Some (v, String "," r') ->
  parse_members pv (S n) (String dquote (k +:+ String dquote (String ":" r)))
  = match parse_members pv n r' with
    | Some (ms, rest) => Some ((k, v) :: ms, rest)
    | None => None
    end.
Proof. intros H Hv. rewrite parse_members_key by exact H. rewrite Hv. reflexivity. Qed.

Lemma parse_members_last (n : nat) (k r r' : string) (v : json) :
  plain_label k = true -> pv r = Some (v, String "}" r') ->
  parse_members pv (S n) (String dquote (k +:+ String dquote (String ":" r)))
  = Some ([(k, v)], r').
Proof. intros H Hv. rewrite parse_members_key by exact H. rewrite Hv. reflexivity. Qed.

(** A non-empty run of elements joined by commas and closed by a
    bracket, each of which [pv] reads on its own. *)
Lemma parse_elements_join {A : Type} (text : A -> string) (val : A -> json)
      (xs : list A) (n : nat) (rest : string) :
  (forall x tail, In x xs -> pv (text x +:+ tail) = Some (val x, tail)) ->
  xs <> [] -> (length xs <= n)%nat ->
  parse_elements pv n (join "," (map text xs) +:+ String "]" rest)
  = Some (map val xs, rest).
Proof.
  intros Hpv Hne. revert n.
  induction xs as [|x xs IH]; [congruence|]. intros n Hn.
  destruct n as [|n]; [cbn in Hn; lia|].
  destruct xs as [|y xs].
  - cbn [map join]. apply parse_elements_last. apply Hpv. now left.
  - change (join "," (map text (x :: y :: xs)))
      with (text x +:+ "," +:+ join "," (map text (y :: xs))).
    rewrite !append_assoc.
    rewrite (parse_elements_more n _ (join "," (map text (y :: xs)) +:+ String "]" rest) (val x)).
    + rewrite IH; [reflexivity | | congruence | cbn in *; lia].
      intros z tail Hz. apply Hpv. now right.
    + apply Hpv. now left.
Qed.
End Steps.
End Reading.

(** * Reading the keyboards back *)
Section KeyboardReading.
Import Json Markup.

Lemma button_text_shape (b tail : string) :
  InlineKeyboard.button_text b +:+ tail
  = String "{" (String dquote ("text" +:+ String dquote (String ":"
      (String dquote (b +:+ String dquote (String ","
        (String dquote ("callback_data" +:+ String dquote (String ":"
          (String dquote (b +:+ String dquote (String "}" tail)))))))))))).
Proof. unfold InlineKeyboard.button_text, DQ. norm_str. reflexivity. Qed.

Lemma parse_inline_button (f : nat) (b tail : string) :
  plain_label b = true ->
  parse_value (S (S (S f))) (InlineKeyboard.button_text b +:+ tail)
  = Some (inline_button b, tail).
Proof.
  intros H. rewrite button_text_shape, parse_value_object.
  erewrite parse_members_more;
    [ | reflexivity | apply parse_value_string; exact H ].
  erewrite parse_members_last;
    [ reflexivity | reflexivity | apply parse_value_string; exact H ].
Qed.

Lemma parse_inline_row (f : nat) (row : list string) (tail : string) :
  (length row <= 1)%nat -> forallb plain_label row = true ->
  parse_value (S (S (S (S f)))) (inline_row row +:+ tail)
  = Some (JArr (map inline_button row), tail).
Proof.
  intros Hlen Hplain. destruct row as [|b [|b' row]]; [ | | cbn in Hlen; lia ].
  - reflexivity.
  - cbn [forallb] in Hplain. apply andb_true_iff in Hplain as [Hb _].
    unfold inline_row. cbn [map concat_str]. norm_str.
    rewrite button_text_shape, parse_value_array by reflexivity.
    rewrite <- button_text_shape.
    erewrite parse_elements_last; [reflexivity|].
    apply parse_inline_button. exact Hb.
Qed.

Lemma parse_reply_row (f : nat) (row : list string) (tail : string) :
  (length row <= 1)%nat -> forallb plain_label row = true ->
  parse_value (S (S f)) (reply_row row +:+ tail)
  = Some (JArr (map JStr row), tail).
Proof.
  intros Hlen Hplain. destruct row as [|b [|b' row]]; [ | | cbn in Hlen; lia ].
  - reflexivity.
  - cbn [forallb] in Hplain. apply andb_true_iff in Hplain as [Hb _].
    unfold reply_row, reply_button, DQ. cbn [map concat_str]. norm_str.
    rewrite parse_value_array by reflexivity.
    erewrite parse_elements_last; [reflexivity|].
    apply parse_value_string. exact Hb.
Qed.

Lemma single_buttons_In (G : grid) (row : list string) :
  single_buttons G = true -> In row G -> (length row <= 1)%nat.
Proof.
  unfold single_buttons. rewrite forallb_forall. intros H Hin.
  apply Nat.leb_le. exact (H row Hin).
Qed.

Lemma plain_grid_In (G : grid) (row : list string) :
  plain_grid G = true -> In row G -> forallb plain_label row = true.
Proof. unfold plain_grid. rewrite forallb_forall. intros H Hin. exact (H row Hin). Qed.

(** A row opens with a bracket. *)
Lemma join_rows_head {A : Type} (text : A -> string) (xs : list A) (tail : string) :
  (forall x, exists r, text x = String "[" r) -> xs <> [] ->
  exists r, join "," (map text xs) +:+ tail = String "[" r.
Proof.
  intros Htext Hne. destruct xs as [|x xs]; [congruence|].
  destruct (Htext x) as [r Hr]. destruct xs as [|y xs].
  - cbn [map join]. rewrite Hr. eexists. now rewrite append_cons.
  - change (join "," (map text (x :: y :: xs)))
      with (text x +:+ "," +:+ join "," (map text (y :: xs))).
    rewrite Hr. eexists. rewrite !append_cons. reflexivity.
Qed.

(** The joined rows are at least as long as their number. *)
Lemma length_join_rows {A : Type} (text : A -> string) (xs : list A) :
  (forall x, exists r, text x = String "[" r) ->
  (length xs <= String.length (join "," (map text xs)))%nat.
Proof.
  intros Htext. induction xs as [|x xs IH]; [cbn; lia|].
  destruct (Htext x) as [r Hr]. destruct xs as [|y xs].
  - cbn [map join]. rewrite Hr. cbn. lia.
  - change (join "," (map text (x :: y :: xs)))
      with (text x +:+ "," +:+ join "," (map text (y :: xs))).
    rewrite Hr, !length_append. cbn [String.length length] in *. lia.
Qed.
End KeyboardReading.

(** * The fuel of the reader *)
Section Fuel.
Import Json.

Lemma skip_ws_length (s : string) : (String.length (skip_ws s) <= String.length s)%nat.
Proof.
  induction s as [|c s IH]; [reflexivity|].
  cbn [skip_ws]. destruct (is_ws c); cbn [String.length]; lia.
Qed.

Lemma skip_ws_cons (s r : string) (c : ascii) :
  skip_ws s = String c r -> (String.length r < String.length s)%nat.
Proof.
  intros H. pose proof (skip_ws_length s) as Hl. rewrite H in Hl.
  cbn [String.length] in Hl. lia.
Qed.

Lemma parse_chars_length (s v rest : string) :
  parse_chars s = Some (v, rest) -> (String.length rest < String.length s)%nat.
Proof.
  remember (String.length s) as n eqn:Hn. assert (Hle : (String.length s <= n)%nat) by lia. clear Hn.
  revert s v rest Hle.
  induction n as [|n IH]; intros s v rest Hle H.
  - destruct s; [discriminate H | cbn in Hle; lia].
  - destruct s as [|c r]; [discriminate H|]. cbn [String.length] in *.
    cbn [parse_chars] in H.
    destruct (code c =? 34)%N; [injection H as <- <-; lia|].
    destruct (code c =? 92)%N.
    + destruct r as [|e r1]; [discriminate H|]. cbn [String.length] in *.
      destruct (unescape e) as [ch|].
      * destruct (parse_chars r1) as [[v' rest']|] eqn:E; [|discriminate H].
        injection H as <- <-. apply IH in E; lia.
      * destruct (code e =? 117)%N; [|discriminate H].
        destruct r1 as [|h1 [|h2 [|h3 [|h4 r2]]]]; try discriminate H.
        destruct (hex4 h1 h2 h3 h4); [|discriminate H].
        destruct (parse_chars r2) as [[v' rest']|] eqn:E; [|discriminate H].
        injection H as <- <-. cbn [String.length] in *. apply IH in E; lia.
    + destruct (code c <? 32)%N; [discriminate H|].
      destruct (parse_chars r) as [[v' rest']|] eqn:E; [|discriminate H].
      injection H as <- <-. apply IH in E; lia.
Qed.

Lemma digits_length (s ds rest : string) :
  digits s = (ds, rest) -> (String.length rest <= String.length s)%nat.
Proof.
  revert ds rest. induction s as [|c s IH]; intros ds rest H.
  - injection H as <- <-. reflexivity.
  - cbn [digits] in H. destruct (is_digit c).
    + destruct (digits s) as [ds' rest'] eqn:E. injection H as <- <-.
      specialize (IH _ _ eq_refl). cbn [String.length]. lia.
    + injection H as <- <-. reflexivity.
Qed.

Lemma parse_number_length (s lit rest : string) :
  parse_number s = Some (lit, rest) -> (String.length rest <= String.length s)%nat.
Proof.
  unfold parse_number. intros H.
  destruct (match s with
            | EmptyString => (EmptyString, s)
            | String c r => if (code c =? 45)%N then (String c EmptyString, r) else (EmptyString, s)
            end) as [sign s1] eqn:Es.
  assert (H1 : (String.length s1 <= String.length s)%nat).
  { destruct s as [|c r]; [injection Es as <- <-; reflexivity|].
    destruct (code c =? 45)%N; injection Es as <- <-; cbn [String.length]; lia. }
  destruct (parse_int_part s1) as [[i s2]|] eqn:Ei; [|discriminate H].
  assert (H2 : (String.length s2 <= String.length s1)%nat).
  { unfold parse_int_part in Ei. destruct s1 as [|c r]; [discriminate Ei|].
    destruct (code c =? 48)%N; [injection Ei as <- <-; cbn [String.length]; lia|].
    destruct (is_digit c); [|discriminate Ei].
    destruct (digits r) as [ds rest'] eqn:Ed. injection Ei as <- <-.
    apply digits_length in Ed. cbn [String.length]. lia. }
  destruct (parse_frac s2) as [[f s3]|] eqn:Ef; [|discriminate H].
  assert (H3 : (String.length s3 <= String.length s2)%nat).
  { unfold parse_frac in Ef. destruct s2 as [|c r]; [injection Ef as <- <-; reflexivity|].
    destruct (code c =? 46)%N; [|injection Ef as <- <-; reflexivity].
    destruct (digits r) as [ds rest'] eqn:Ed. destruct (is_empty ds); [discriminate Ef|].
    injection Ef as <- <-. apply digits_length in Ed. cbn [String.length]. lia. }
  destruct (parse_exp s3) as [[e s4]|] eqn:Ee; [|discriminate H].
  assert (H4 : (String.length s4 <= String.length s3)%nat).
  { unfold parse_exp in Ee. destruct s3 as [|c r]; [injection Ee as <- <-; reflexivity|].
    destruct ((code c =? 101)%N || (code c =? 69)%N); [|injection Ee as <- <-; reflexivity].
    destruct (match r with
              | EmptyString => (EmptyString, r)
              | String g r' =>
                if (code g =? 43)%N || (code g =? 45)%N then (String g EmptyString, r')
                else (EmptyString, r)
              end) as [sg r1] eqn:Er.
    assert (Hr : (String.length r1 <= String.length r)%nat).
    { destruct r as [|g r']; [injection Er as <- <-; reflexivity|].
      destruct ((code g =? 43)%N || (code g =? 45)%N); injection Er as <- <-;
        cbn [String.length]; lia. }
    destruct (digits r1) as [ds rest'] eqn:Ed. destruct (is_empty ds); [discriminate Ee|].
    injection Ee as <- <-. apply digits_length in Ed. cbn [String.length]. lia. }
  injection H as <- <-. lia.
Qed.

Lemma strip_prefix_length (p s rest : string) :
  strip_prefix p s = Some rest -> (String.length rest <= String.length s)%nat.
Proof.
  revert s. induction p as [|a p IH]; intros s H.
  - injection H as <-. reflexivity.
  - destruct s as [|b s]; [discriminate H|]. cbn [strip_prefix] in H.
    destruct (Ascii.eqb a b); [|discriminate H]. apply IH in H. cbn [String.length]. lia.
Qed.

Lemma parse_elements_settled (f n : nat) (s : string) (vs : list json) (rest : string) :
  settled parse_value f ->
  parse_elements (parse_value f) n s = Some (vs, rest) ->
  (String.length rest <= String.length s)%nat
  /\ forall f' n', (String.length s < f')%nat -> (String.length s <= n')%nat ->
       parse_elements (parse_value f') n' s = Some (vs, rest).
Proof.
  intros Hf. revert s vs rest. induction n as [|n IH]; intros s vs rest H; [discriminate H|].
  cbn [parse_elements] in H.
  destruct (parse_value f s) as [[v r]|] eqn:Ev; [|discriminate H].
  destruct (Hf _ _ _ Ev) as [Hlen Hmore].
  destruct (skip_ws r) as [|c r'] eqn:Ews; [discriminate H|].
  pose proof (skip_ws_cons _ _ _ Ews) as Hr'.
  destruct (code c =? 44)%N eqn:Ec.
  - destruct (parse_elements (parse_value f) n r') as [[vs' rest']|] eqn:Ee; [|discriminate H].
    injection H as <- <-. destruct (IH _ _ _ Ee) as [Hlen' Hmore']. split; [lia|].
    intros f' n' Hf' Hn'. destruct n' as [|n']; [lia|].
    cbn [parse_elements]. rewrite (Hmore f' Hf'), Ews, Ec.
    rewrite (Hmore' f' n') by lia. reflexivity.
  - destruct (code c =? 93)%N eqn:Ec'; [|discriminate H].
    injection H as <- <-. split; [lia|].
    intros f' n' Hf' Hn'. destruct n' as [|n']; [lia|].
    cbn [parse_elements]. now rewrite (Hmore f' Hf'), Ews, Ec, Ec'.
Qed.

Lemma parse_members_settled (f n : nat) (s : string) (ms : list (string * json))
      (rest : string) :
  settled parse_value f ->
  parse_members (parse_value f) n s = Some (ms, rest) ->
  (String.length rest <= String.length s)%nat
  /\ forall f' n', (String.length s < f')%nat -> (String.length s <= n')%nat ->
       parse_members (parse_value f') n' s = Some (ms, rest).
Proof.
  intros Hf. revert s ms rest. induction n as [|n IH]; intros s ms rest H; [discriminate H|].
  cbn [parse_members] in H.
  destruct (skip_ws s) as [|q r0] eqn:E0; [discriminate H|].
  pose proof (skip_ws_cons _ _ _ E0) as H0.
  destruct (code q =? 34)%N eqn:Eq; [|discriminate H].
  destruct (parse_chars r0) as [[k r1]|] eqn:Ek; [|discriminate H].
  pose proof (parse_chars_length _ _ _ Ek) as H1.
  destruct (skip_ws r1) as [|c r2] eqn:E1; [discriminate H|].
  pose proof (skip_ws_cons _ _ _ E1) as H2.
  destruct (code c =? 58)%N eqn:Ec; [|discriminate H].
  destruct (parse_value f r2) as [[v r3]|] eqn:Ev; [|discriminate H].
  destruct (Hf _ _ _ Ev) as [Hlen Hmore].
  destruct (skip_ws r3) as [|d r4] eqn:E3; [discriminate H|].
  pose proof (skip_ws_cons _ _ _ E3) as H4.
  destruct (code d =? 44)%N eqn:Ed.
  - destruct (parse_members (parse_value f) n r4) as [[ms' rest']|] eqn:Em; [|discriminate H].
    injection H as <- <-. destruct (IH _ _ _ Em) as [Hlen' Hmore']. split; [lia|].
    intros f' n' Hf' Hn'. destruct n' as [|n']; [lia|].
    cbn [parse_members]. rewrite E0, Eq, Ek, E1, Ec, (Hmore f') by lia.
    rewrite E3, Ed, (Hmore' f' n') by lia. reflexivity.
  - destruct (code d =? 125)%N eqn:Ed'; [|discriminate H].
    injection H as <- <-. split; [lia|].
    intros f' n' Hf' Hn'. destruct n' as [|n']; [lia|].
    cbn [parse_members]. rewrite E0, Eq, Ek, E1, Ec, (Hmore f') by lia.
    now rewrite E3, Ed, Ed'.
Qed.

Lemma parse_value_settled (f : nat) : settled parse_value f.
Proof.
  induction f as [|f IH]; intros s v rest H; [discriminate H|].
  cbn [parse_value] in H.
  destruct (skip_ws s) as [|c r] eqn:Ews; [discriminate H|].
  pose proof (skip_ws_cons _ _ _ Ews) as Hr.
  assert (Hstep : forall f', (String.length s < f')%nat -> exists f0, f' = S f0 /\ (String.length r < f0)%nat).
  { intros f' Hf'. destruct f' as [|f0]; [lia|]. exists f0. split; [reflexivity | lia]. }
  destruct (code c =? 34)%N eqn:E34.
  { destruct (parse_chars r) as [[v' rest']|] eqn:E; [|discriminate H].
    injection H as <- <-. pose proof (parse_chars_length _ _ _ E) as Hlen. split; [lia|].
    intros f' Hf'. destruct (Hstep f' Hf') as (f0 & -> & _).
    cbn [parse_value]. now rewrite Ews, E34, E. }
  destruct (code c =? 91)%N eqn:E91.
  { destruct (skip_ws r) as [|d r'] eqn:Ews'; [discriminate H|].
    pose proof (skip_ws_cons _ _ _ Ews') as Hr'.
    destruct (code d =? 93)%N eqn:E93.
    - injection H as <- <-. split; [lia|].
      intros f' Hf'. destruct (Hstep f' Hf') as (f0 & -> & _).
      cbn [parse_value]. now rewrite Ews, E34, E91, Ews', E93.
    - destruct (parse_elements (parse_value f) f r) as [[vs rest']|] eqn:E; [|discriminate H].
      injection H as <- <-.
      destruct (parse_elements_settled f f r vs rest' IH E) as [Hlen Hmore]. split; [lia|].
      intros f' Hf'. destruct (Hstep f' Hf') as (f0 & -> & Hf0).
      cbn [parse_value]. rewrite Ews, E34, E91, Ews', E93.
      rewrite (Hmore f0 f0) by lia. reflexivity. }
  destruct (code c =? 123)%N eqn:E123.
  { destruct (skip_ws r) as [|d r'] eqn:Ews'; [discriminate H|].
    pose proof (skip_ws_cons _ _ _ Ews') as Hr'.
    destruct (code d =? 125)%N eqn:E125.
    - injection H as <- <-. split; [lia|].
      intros f' Hf'. destruct (Hstep f' Hf') as (f0 & -> & _).
      cbn [parse_value]. now rewrite Ews, E34, E91, E123, Ews', E125.
    - destruct (parse_members (parse_value f) f r) as [[ms rest']|] eqn:E; [|discriminate H].
      injection H as <- <-.
      destruct (parse_members_settled f f r ms rest' IH E) as [Hlen Hmore]. split; [lia|].
      intros f' Hf'. destruct (Hstep f' Hf') as (f0 & -> & Hf0).
      cbn [parse_value]. rewrite Ews, E34, E91, E123, Ews', E125.
      rewrite (Hmore f0 f0) by lia. reflexivity. }
  assert (Hscalar : forall f', (String.length s < f')%nat -> parse_value f' s = Some (v, rest)).
  { intros f' Hf'. destruct (Hstep f' Hf') as (f0 & -> & _).
    cbn [parse_value]. rewrite Ews, E34, E91, E123. exact H. }
  split; [|exact Hscalar]. clear Hscalar Hstep.
  destruct (code c =? 116)%N.
  { destruct (strip_prefix "rue" r) as [rest'|] eqn:E; [|discriminate H].
    injection H as <- <-. apply strip_prefix_length in E. lia. }
  destruct (code c =? 102)%N.
  { destruct (strip_prefix "alse" r) as [rest'|] eqn:E; [|discriminate H].
    injection H as <- <-. apply strip_prefix_length in E. lia. }
  destruct (code c =? 110)%N.
  { destruct (strip_prefix "ull" r) as [rest'|] eqn:E; [|discriminate H].
    injection H as <- <-. apply strip_prefix_length in E. lia. }
  destruct (parse_number (String c r)) as [[lit rest']|] eqn:E; [|discriminate H].
  injection H as <- <-. apply parse_number_length in E. cbn [String.length] in E. lia.
Qed.

(** The executable reader accepts exactly the JSON texts. *)
Theorem read_complete (s : string) (v : json) : is_json s v <-> read s = Some v.
Proof.
  split.
  - intros (fuel & rest & H & Hws). unfold read.
    destruct (parse_value_settled fuel s v rest H) as [_ Hmore].
    rewrite (Hmore (S (String.length s))) by lia. now rewrite Hws.
  - unfold read, is_json. intros H.
    destruct (parse_value (S (String.length s)) s) as [[v' rest]|] eqn:E; [|discriminate].
    destruct (skip_ws rest) eqn:Ews; [|discriminate].
    injection H as <-. now exists (S (String.length s)), rest.
Qed.

Corollary valid_json_read (s : string) : valid_json s <-> read s <> None.
Proof.
  unfold valid_json. split.
  - intros [v Hv]. apply read_complete in Hv. congruence.
  - destruct (read s) as [v|] eqn:E; [|congruence]. intros _. exists v.
    now apply read_complete.
Qed.
End Fuel.

(** * The claims about the keyboard serializers *)
Section KeyboardClaims.
Import Json Markup.

Lemma inline_row_head (row : list string) : exists r, inline_row row = String "[" r.
Proof. unfold inline_row. eexists. norm_str. reflexivity. Qed.

Lemma reply_row_head (row : list string) : exists r, reply_row row = String "[" r.
Proof. unfold reply_row. eexists. norm_str. reflexivity. Qed.

(** C1 (as amended). For every non-empty button grid whose rows hold at most
    one button each and whose labels contain no double quote, backslash or
    control character, [InlineKeyboard.__str__] produces valid JSON: an
    object whose [inline_keyboard] array has one array per row of the grid,
    one object per button, and in each object [text] and [callback_data]
    both hold the label. *)
Theorem inline_keyboard_reads_back (G : grid) :
  G <> [] -> single_buttons G = true -> plain_grid G = true ->
  read (InlineKeyboard.__str__ G) = Some (inline_markup G).
Proof.
  intros Hne Hsingle Hplain.
  rewrite inline_str_nonempty by exact Hne.
  set (body := join "," (map inline_row G)).
  assert (Hfuel : exists f,
             String.length (("{" +:+ DQ +:+ "inline_keyboard" +:+ DQ +:+ ":[") +:+ body +:+ "]}")
             = S (S (S (S (S f)))) /\ (length G <= S (S (S (S f))))%nat).
  { exists (String.length body + 17)%nat. rewrite !length_append.
    pose proof (length_join_rows inline_row G inline_row_head) as Hlen.
    fold body in Hlen. cbn [String.length DQ]. lia. }
  destruct Hfuel as (f & Hf & HG).
  unfold read. rewrite Hf. clear Hf.
  destruct (join_rows_head inline_row G (String "]" (String "}" EmptyString))
                           inline_row_head Hne) as [r Hr].
  fold body in Hr.
  assert (Hrows : parse_value (S (S (S (S (S f)))))
                    (String "[" (body +:+ String "]" (String "}" EmptyString)))
                  = Some (JArr (map (fun row => JArr (map inline_button row)) G),
                          String "}" EmptyString)).
  { rewrite Hr, parse_value_array by reflexivity. rewrite <- Hr.
    unfold body.
    rewrite (parse_elements_join _ inline_row (fun row => JArr (map inline_button row)));
      [reflexivity | | exact Hne | exact HG].
    intros row tail Hin. apply parse_inline_row.
    - exact (single_buttons_In G row Hsingle Hin).
    - exact (plain_grid_In G row Hplain Hin). }
  replace (("{" +:+ DQ +:+ "inline_keyboard" +:+ DQ +:+ ":[") +:+ body +:+ "]}")
    with (String "{" (String dquote ("inline_keyboard" +:+ String dquote (String ":"
            (String "[" (body +:+ String "]" (String "}" EmptyString)))))))
    by (unfold DQ; norm_str; reflexivity).
  rewrite parse_value_object.
  erewrite parse_members_last; [ | reflexivity | exact Hrows].
  reflexivity.
Qed.

(** C4 (as amended). For every non-empty button grid whose rows hold at most
    one button each and whose labels contain no double quote, backslash or
    control character, [ReplyKeyboard.__str__] produces valid JSON: an
    object whose [keyboard] array mirrors the grid, each label a plain
    JSON string, and whose [resize_keyboard] and [one_time_keyboard] are
    both true. *)
Theorem reply_keyboard_reads_back (G : grid) :
  G <> [] -> single_buttons G = true -> plain_grid G = true ->
  read (ReplyKeyboard.__str__ G) = Some (reply_markup G).
Proof.
  intros Hne Hsingle Hplain.
  rewrite reply_str_nonempty by exact Hne.
  set (body := join "," (map reply_row G)).
  set (flags := DQ +:+ "resize_keyboard" +:+ DQ +:+ ":true,"
                   +:+ DQ +:+ "one_time_keyboard" +:+ DQ +:+ ":true}").
  assert (Hfuel : exists f,
             String.length (("{" +:+ DQ +:+ "keyboard" +:+ DQ +:+ ":[") +:+ body +:+ "]," +:+ flags)
             = S (S (S (S (S f)))) /\ (length G <= S (S (S (S f))))%nat).
  { exists (String.length body + String.length flags + 10)%nat. rewrite !length_append.
    pose proof (length_join_rows reply_row G reply_row_head) as Hlen.
    fold body in Hlen. cbn [String.length DQ]. lia. }
  destruct Hfuel as (f & Hf & HG).
  unfold read. rewrite Hf. clear Hf.
  destruct (join_rows_head reply_row G (String "]" (String "," flags))
                           reply_row_head Hne) as [r Hr].
  fold body in Hr.
  assert (Hrows : parse_value (S (S (S (S (S f)))))
                    (String "[" (body +:+ String "]" (String "," flags)))
                  = Some (JArr (map (fun row => JArr (map JStr row)) G), String "," flags)).
  { rewrite Hr, parse_value_array by reflexivity. rewrite <- Hr.
    unfold body.
    rewrite (parse_elements_join _ reply_row (fun row => JArr (map JStr row)));
      [reflexivity | | exact Hne | exact HG].
    intros row tail Hin. apply parse_reply_row.
    - exact (single_buttons_In G row Hsingle Hin).
    - exact (plain_grid_In G row Hplain Hin). }
  replace (("{" +:+ DQ +:+ "keyboard" +:+ DQ +:+ ":[") +:+ body +:+ "]," +:+ flags)
    with (String "{" (String dquote ("keyboard" +:+ String dquote (String ":"
            (String "[" (body +:+ String "]" (String "," flags)))))))
    by (unfold DQ; norm_str; reflexivity).
  rewrite parse_value_object.
  erewrite parse_members_more; [ | reflexivity | exact Hrows].
  reflexivity.
Qed.

(** The amended claims at a grid with a one-button row, an empty row and a
    label with a space. *)
Lemma inline_keyboard_reads_back_witness :
  [["Yes"]; []; ["Not now"]] <> []
  /\ single_buttons [["Yes"]; []; ["Not now"]] = true
  /\ plain_grid [["Yes"]; []; ["Not now"]] = true
  /\ read (InlineKeyboard.__str__ [["Yes"]; []; ["Not now"]])
     = Some (inline_markup [["Yes"]; []; ["Not now"]]).
Proof.
  split; [discriminate|]. split; [reflexivity|]. split; [reflexivity|].
  apply (inline_keyboard_reads_back [["Yes"]; []; ["Not now"]]);
    [discriminate | reflexivity | reflexivity].
Defined.

Lemma reply_keyboard_reads_back_witness :
  [["Yes"]; []; ["Not now"]] <> []
  /\ single_buttons [["Yes"]; []; ["Not now"]] = true
  /\ plain_grid [["Yes"]; []; ["Not now"]] = true
  /\ read (ReplyKeyboard.__str__ [["Yes"]; []; ["Not now"]])
     = Some (reply_markup [["Yes"]; []; ["Not now"]]).
Proof.
  split; [discriminate|]. split; [reflexivity|]. split; [reflexivity|].
  apply (reply_keyboard_reads_back [["Yes"]; []; ["Not now"]]);
    [discriminate | reflexivity | reflexivity].
Defined.

(** C1 as stated fails: a label that is one double quote is copied into the
    text as it is, and the result is not JSON. *)
Lemma inline_keyboard_quote_label_invalid :
  ~ valid_json (InlineKeyboard.__str__ [[DQ]]).
Proof. rewrite valid_json_read. intros H. apply H. vm_compute. reflexivity. Qed.

(** A label can also close its own string and add members: the text is
    JSON then, but [text] is no longer the label. *)
Lemma inline_keyboard_label_injects_member :
  let label := "x" +:+ DQ +:+ "," +:+ DQ +:+ "y" +:+ DQ +:+ ":" +:+ DQ +:+ "z" in
  read (InlineKeyboard.__str__ [[label]])
  = Some (JObj [("inline_keyboard",
                 JArr [JArr [JObj [("text", JStr "x"); ("y", JStr "z");
                                   ("callback_data", JStr "x"); ("y", JStr "z")]]])]).
Proof. vm_compute. reflexivity. Qed.

(** The grid of the docstring of the class: the two buttons of its first
    row are written one after the other with nothing between them. *)
Lemma inline_keyboard_two_buttons_invalid :
  ~ valid_json (InlineKeyboard.__str__
                  [["First button of the first row"; "Second button of the first row"];
                   ["First button of the second row"]]).
Proof. rewrite valid_json_read. intros H. apply H. vm_compute. reflexivity. Qed.

(** For the empty grid [result[:-1]] removes the opening bracket. *)
Lemma inline_keyboard_empty_grid_invalid : ~ valid_json (InlineKeyboard.__str__ []).
Proof. rewrite valid_json_read. intros H. apply H. vm_compute. reflexivity. Qed.

(** C4 as stated fails in the same way. *)
Lemma reply_keyboard_quote_label_invalid :
  ~ valid_json (ReplyKeyboard.__str__ [[DQ]]).
Proof. rewrite valid_json_read. intros H. apply H. vm_compute. reflexivity. Qed.

Lemma reply_keyboard_two_buttons_invalid :
  ~ valid_json (ReplyKeyboard.__str__
                  [["First button of the first row"; "Second button of the first row"];
                   ["First button of the second row"]]).
Proof. rewrite valid_json_read. intros H. apply H. vm_compute. reflexivity. Qed.

Lemma reply_keyboard_empty_grid_invalid : ~ valid_json (ReplyKeyboard.__str__ []).
Proof. rewrite valid_json_read. intros H. apply H. vm_compute. reflexivity. Qed.
End KeyboardClaims.

(** * Facts about the transport *)
Section Transport.
Import Py TelegramBot Session.
Context {RT : Runtime}.

Lemma sendRequest_within_nil (room : nat) (method : string) (data : list (string * pyval))
      (s : state) :
  sendRequest_within room [] method data s
  = (NoReply, [], issue (Request (URL (self s) +:+ method) data) s).
Proof. reflexivity. Qed.

(** The equation of [sendRequest] on an answered request, with the methods
    it calls under their own names. *)
Lemma sendRequest_within_cons (room : nat) (o : outcome) (rest : list outcome)
      (method : string) (data : list (string * pyval)) (s : state) :
  sendRequest_within room (o :: rest) method data s
  = let s := issue (Request (URL (self s) +:+ method) data) s in
    match o with
    | Raises e =>
      bind (errorHandler_within room o rest
              (OtherError e (frame_locals (self s) method data e)) s)
           (fun _ rest s => (Ret PNone, rest, s))
    | RaisesHTTPError filename body =>
      bind (errorHandler_within room o rest (HTTPError filename body) s)
           (fun _ rest s => (Ret PNone, rest, s))
    | Loads response =>
      match getitem_str response "ok" with
      | inr e => (Raise e, rest, s)
      | inl ok =>
        if negb (truthy ok) then
          bind (report (sendMsgToAdmin_within room o rest) rest response s)
               (fun _ rest s => (Ret PNone, rest, s))
        else
          match getitem_str response "result" with
          | inr e => (Raise e, rest, s)
          | inl result => (Ret result, rest, s)
          end
      end
    end.
Proof. destruct o; reflexivity. Qed.

Lemma sendRequest_nil (method : string) (data : list (string * pyval)) (s : state) :
  sendRequest [] method data s
  = (NoReply, [], issue (Request (URL (self s) +:+ method) data) s).
Proof. reflexivity. Qed.

Lemma reported_failure (o : outcome) : reported o = true -> is_failure o = true.
Proof. destruct o; [auto | reflexivity | auto]. Qed.

(** An outcome is a failure that gets reported, an [HTTPError] whose body
    does not decode, or no failure at all. *)
Lemma outcome_cases (o : outcome) :
  reported o = true
  \/ (exists filename body, o = RaisesHTTPError filename body /\ decode body = None)
  \/ is_failure o = false.
Proof.
  destruct o as [e|filename body|response]; cbn [reported is_failure].
  - now left.
  - destruct (decode body) eqn:Hd; [now left|]. right. left. now exists filename, body.
  - destruct (getitem_str response "ok") as [ok|]; [|now right; right].
    destruct (negb (truthy ok)); [now left | now right; right].
Qed.

(** Every failure that gets reported is handled by [report], with the
    message of the failure. *)
Lemma sendRequest_within_failure (room : nat) (o : outcome) (rest : list outcome)
      (method : string) (data : list (string * pyval)) (s : state) :
  reported o = true ->
  sendRequest_within room (o :: rest) method data s
  = let s := issue (Request (URL (self s) +:+ method) data) s in
    bind (report (sendMsgToAdmin_within room o rest) rest
                 (failure_msg (self s) method data o) s)
         (fun _ rest s => (Ret PNone, rest, s)).
Proof.
  intros Hf. rewrite sendRequest_within_cons. cbv zeta.
  destruct o as [e|filename body|response].
  - reflexivity.
  - cbn [reported] in Hf. unfold errorHandler_within, errorHandler_with.
    cbn [failure_msg error_msg]. destruct (decode body); [reflexivity | discriminate].
  - cbn [reported is_failure] in Hf. cbn [failure_msg].
    destruct (getitem_str response "ok") as [ok|]; [|discriminate].
    now rewrite Hf.
Qed.

(** An [HTTPError] whose body does not decode: the exception of [decode]
    escapes before anything is reported. *)
Lemma sendRequest_within_undecodable (room : nat) (filename body : string)
      (rest : list outcome) (method : string) (data : list (string * pyval)) (s : state) :
  decode body = None ->
  sendRequest_within room (RaisesHTTPError filename body :: rest) method data s
  = (Raise UnicodeDecodeError, rest, issue (Request (URL (self s) +:+ method) data) s).
Proof.
  intros Hd. rewrite sendRequest_within_cons. cbv zeta.
  unfold errorHandler_within, errorHandler_with. now rewrite Hd.
Qed.

(** An outcome that is no failure is the answer to the request: nothing
    is reported. *)
Lemma sendRequest_within_answer (room : nat) (o : outcome) (rest : list outcome)
      (method : string) (data : list (string * pyval)) (s : state) :
  is_failure o = false ->
  exists r, sendRequest_within room (o :: rest) method data s
            = (r, rest, issue (Request (URL (self s) +:+ method) data) s).
Proof.
  intros Hf. rewrite sendRequest_within_cons. cbv zeta.
  destruct o as [e|filename body|response]; try discriminate Hf.
  cbn [is_failure] in Hf.
  destruct (getitem_str response "ok") as [ok|]; [|now eexists].
  rewrite Hf. destruct (getitem_str response "result"); now eexists.
Qed.

Lemma sendRequest_failure (o : outcome) (rest : list outcome) (method : string)
      (data : list (string * pyval)) (s : state) :
  reported o = true ->
  sendRequest (o :: rest) method data s
  = let s := issue (Request (URL (self s) +:+ method) data) s in
    bind (report (sendMsgToAdmin_within (4 + stack) o rest) rest
                 (failure_msg (self s) method data o) s)
         (fun _ rest s => (Ret PNone, rest, s)).
Proof. apply sendRequest_within_failure. Qed.

Lemma sendRequest_within_success (room : nat) (d : list (string * pyval))
      (ok result : pyval) (rest : list outcome) (method : string)
      (data : list (string * pyval)) (s : state) :
  dict_get d "ok" = Some ok -> truthy ok = true -> dict_get d "result" = Some result ->
  sendRequest_within room (Loads (PDict d) :: rest) method data s
  = (Ret result, rest, issue (Request (URL (self s) +:+ method) data) s).
Proof.
  intros Hok Ht Hres. rewrite sendRequest_within_cons. cbv zeta.
  cbn [getitem_str]. rewrite Hok, Ht, Hres. reflexivity.
Qed.

Lemma sendRequest_success (d : list (string * pyval)) (ok result : pyval)
      (rest : list outcome) (method : string) (data : list (string * pyval)) (s : state) :
  dict_get d "ok" = Some ok -> truthy ok = true -> dict_get d "result" = Some result ->
  sendRequest (Loads (PDict d) :: rest) method data s
  = (Ret result, rest, issue (Request (URL (self s) +:+ method) data) s).
Proof. apply sendRequest_within_success. Qed.

(** ** The object is not modified by the transport *)

Lemma writeLog_self (msg : pyval) (s : state) : self (writeLog msg s).2 = self s.
Proof.
  unfold writeLog. destruct (LOGFILEPATH (self s)) as [path|]; [|reflexivity].
  destruct (refused path s); [reflexivity|]. destruct msg; reflexivity.
Qed.

Lemma bind_self {A B : Type} (m : run A) (k : A -> list outcome -> state -> run B) (b : t) :
  self m.2 = b -> (forall a rest s, self (k a rest s).2 = self s) ->
  self (bind m k).2 = b.
Proof.
  intros Hm Hk. destruct m as [[[a|e|] rest] s]; cbn [bind]; [|exact Hm|exact Hm].
  rewrite Hk. exact Hm.
Qed.

Lemma report_self (send : pyval -> state -> run pyval) (rest : list outcome)
      (msg : pyval) (s : state) :
  (forall m s0, self (send m s0).2 = self s0) ->
  self (report send rest msg s).2 = self s.
Proof.
  intros Hsend. unfold report. apply bind_self.
  - destruct (admin_set (self s)); [apply Hsend | reflexivity].
  - intros _ rest' s'. destruct (log_set (self s')); [|reflexivity].
    pose proof (writeLog_self msg s') as Hw.
    destruct (writeLog msg s') as [r s'']. exact Hw.
Qed.

Lemma errorHandler_within_self (room : nat) (o : outcome) (rest : list outcome)
      (err : error) (s : state) :
  (forall m s0, self (sendMsgToAdmin_within room o rest m s0).2 = self s0) ->
  self (errorHandler_within room o rest err s).2 = self s.
Proof.
  intros Hsend. unfold errorHandler_within, errorHandler_with.
  destruct err as [filename body|e f_locals].
  - destruct (decode body); [now apply report_self | reflexivity].
  - now apply report_self.
Qed.

Lemma sendRequest_within_self (room : nat) (script : list outcome) (method : string)
      (data : list (string * pyval)) (s : state) :
  self (sendRequest_within room script method data s).2 = self s.
Proof.
  revert room method data s.
  induction script as [|o rest IH]; intros room method data s.
  - now rewrite sendRequest_within_nil.
  - assert (Hsend : forall m s0, self (sendMsgToAdmin_within room o rest m s0).2 = self s0).
    { intros m s0. unfold sendMsgToAdmin_within.
      destruct (calls o <=? room)%nat; [apply IH | reflexivity]. }
    rewrite sendRequest_within_cons. cbv zeta.
    set (s1 := issue _ s). change (self s) with (self s1).
    destruct o as [e|filename body|response].
    + apply bind_self; [|reflexivity]. now apply errorHandler_within_self.
    + apply bind_self; [|reflexivity]. now apply errorHandler_within_self.
    + destruct (getitem_str response "ok") as [ok|]; [|reflexivity].
      destruct (negb (truthy ok)).
      * apply bind_self; [|reflexivity]. now apply report_self.
      * destruct (getitem_str response "result"); reflexivity.
Qed.

Lemma sendRequest_self (script : list outcome) (method : string)
      (data : list (string * pyval)) (s : state) :
  self (sendRequest script method data s).2 = self s.
Proof. apply sendRequest_within_self. Qed.
End Transport.

(** * The update cursor and the frame of the operations *)
Section Cursor.
Import Py TelegramBot Session.
Context {RT : Runtime}.

Lemma getUpdate_object (script : list outcome) (s : state) :
  self (getUpdate script s).2 = self s
  \/ exists n, (getUpdate script s).2
                = set_offset n (sendRequest script "getUpdates"
                    [("offset", PInt (offset (self s))); ("limit", PInt 1);
                     ("timeout", PInt (TIMEOUT (self s)))] s).2.
Proof.
  unfold getUpdate.
  pose proof (sendRequest_self script "getUpdates"
                [("offset", PInt (offset (self s))); ("limit", PInt 1);
                 ("timeout", PInt (TIMEOUT (self s)))] s) as Hself.
  destruct (sendRequest _ _ _ s) as [[[response|e|] rest] s1];
    cbn [bind snd] in *; [|now left|now left].
  destruct (truthy response); [|now left].
  destruct (getitem_0 response) as [upd|]; [|now left].
  destruct (getitem_str upd "update_id") as [uid|]; [|now left].
  destruct (add_1 uid) as [n|]; [|now left].
  right. now exists n.
Qed.

Lemma getUpdate_config (script : list outcome) (s : state) :
  let b := self (getUpdate script s).2 in
  URL b = URL (self s) /\ TIMEOUT b = TIMEOUT (self s)
  /\ ADMINCHATID b = ADMINCHATID (self s) /\ LOGFILEPATH b = LOGFILEPATH (self s).
Proof.
  cbv zeta. destruct (getUpdate_object script s) as [-> | [n ->]]; [auto|].
  cbn [set_offset self URL TIMEOUT ADMINCHATID LOGFILEPATH].
  rewrite sendRequest_self. auto.
Qed.

(** C10. Every call to [sendMsg], [sendKeyboard], [sendMsgToAdmin] or
    [deletMessage] leaves the object as it was, whatever the call ends in:
    the cursor [offset] and the fields [URL], [TIMEOUT], [ADMINCHATID] and
    [LOGFILEPATH] are unchanged. [getUpdate], the only method that assigns
    to [offset], leaves the four configuration fields unchanged. *)
Theorem send_and_delete_frame (script : list outcome) (s : state) :
  (forall chatID text, self (sendMsg script chatID text s).2 = self s)
  /\ (forall chatID text keyboard,
         self (sendKeyboard script chatID text keyboard s).2 = self s)
  /\ (forall msg, self (sendMsgToAdmin script msg s).2 = self s)
  /\ (forall chatID message_id,
         self (deletMessage script chatID message_id s).2 = self s)
  /\ (let b := self (getUpdate script s).2 in
      URL b = URL (self s) /\ TIMEOUT b = TIMEOUT (self s)
      /\ ADMINCHATID b = ADMINCHATID (self s) /\ LOGFILEPATH b = LOGFILEPATH (self s)).
Proof.
  repeat split; intros; try apply sendRequest_self; apply getUpdate_config.
Qed.

(** In a log of calls, every call other than a poll leaves the object as
    it was. *)
Lemma perform_frame (o : op) (script : list outcome) (s : state) :
  o <> GetUpdate -> self (perform o script s).2 = self s.
Proof. destruct o; intros H; [congruence | | | | ]; apply sendRequest_self. Qed.

(** ** Polls *)

Lemma getUpdate_no_update (o : outcome) (rest : list outcome) (s : state) :
  replies NoUpdate o ->
  getUpdate (o :: rest) s
  = (Ret (PList []), rest, issue (poll_request (self s) (offset (self s))) s).
Proof.
  intros (d & ok & result & -> & Hok & Ht & Hres & ->).
  unfold getUpdate. erewrite sendRequest_success by eassumption. reflexivity.
Qed.

Lemma getUpdate_update (u : Z) (o : outcome) (rest : list outcome) (s : state) :
  replies (Update u) o ->
  exists result,
    getUpdate (o :: rest) s
    = (Ret result, rest,
       set_offset (u + 1) (issue (poll_request (self s) (offset (self s))) s))
    /\ first_update_id (Ret result) = Some u.
Proof.
  intros (d & ok & result & -> & Hok & Ht & Hres & upd & more & -> & Hid).
  exists (PList (PDict upd :: more)). split.
  - unfold getUpdate. erewrite sendRequest_success by eassumption.
    cbn [bind truthy getitem_0 getitem_str]. rewrite Hid. reflexivity.
  - cbn [first_update_id]. now rewrite Hid.
Qed.

Lemma last_cons {A : Type} (x d : A) (l : list A) : List.last (x :: l) d = List.last l x.
Proof.
  revert x d. induction l as [|y l IH]; intros x d; [reflexivity|].
  change (List.last (x :: y :: l) d) with (List.last (y :: l) d). now rewrite !IH.
Qed.

(** C2. For every sequence of successful polls, the cursor after each poll
    that returns an update is the id of that update plus one, a poll that
    returns nothing leaves it as it was, and the [offset] field of each
    poll request is the cursor left by the poll before it (the cursor at
    the start, for the first). *)
Theorem getUpdate_cursor (ps : list poll) (script : list outcome) (s : state) :
  Forall2 replies ps script ->
  let log := perform_all (repeat GetUpdate (length ps)) script s in
  let cursor := offset (self s) in
  map (fun e => offset (self (after e))) log = cursors cursor ps
  /\ sent (List.last (map after log) s)
     = sent s ++ map (poll_request (self s)) (removelast (cursor :: cursors cursor ps)).
Proof.
  intros H. revert s. induction H as [|p o ps script Hp Hrest IH]; intros s.
  - cbn. now rewrite app_nil_r.
  - cbn [length repeat perform_all perform]. destruct p as [|u].
    + rewrite (getUpdate_no_update o script s Hp).
      set (s1 := issue _ s). specialize (IH s1). cbv zeta in IH.
      destruct IH as [IHc IHs]. cbn [map after cursors]. split.
      * f_equal. exact IHc.
      * rewrite last_cons, IHs. unfold s1. cbn [issue sent self].
        rewrite <- app_assoc. reflexivity.
    + destruct (getUpdate_update u o script s Hp) as (result & -> & _).
      set (s1 := set_offset (u + 1) _). specialize (IH s1). cbv zeta in IH.
      destruct IH as [IHc IHs]. cbn [map after cursors]. split.
      * f_equal. exact IHc.
      * rewrite last_cons, IHs. unfold s1.
        cbn [set_offset issue sent self offset].
        rewrite <- app_assoc. reflexivity.
Qed.

End Cursor.

Section Monotone.
Import Py TelegramBot Session.
Context {RT : Runtime}.

Lemma maximum_bound (u : Z) (l : list Z) :
  (forall x, In x l -> (x <= u)%Z) -> maximum u l = u.
Proof.
  unfold maximum. induction l as [|y l IH]; intros H; [reflexivity|].
  cbn [fold_left]. rewrite Z.max_l by (apply H; now left).
  apply IH. intros x Hx. apply H. now right.
Qed.

(** How a poll ends: the object is as before and no update is reported,
    or the poll returns a true value and the cursor follows the id of the
    update it reports. *)
Lemma getUpdate_cases (script : list outcome) (s : state) :
  let r := (getUpdate script s).1.1 in
  let s' := (getUpdate script s).2 in
  (self s' = self s /\ first_update_id r = None)
  \/ (exists response, r = Ret response /\ truthy response = true
        /\ forall u, first_update_id r = Some u -> offset (self s') = (u + 1)%Z).
Proof.
  cbv zeta. unfold getUpdate.
  pose proof (sendRequest_self script "getUpdates"
                [("offset", PInt (offset (self s))); ("limit", PInt 1);
                 ("timeout", PInt (TIMEOUT (self s)))] s) as Hself.
  destruct (sendRequest _ _ _ s) as [[[response|e|] rest] s1];
    cbn [bind fst snd] in *; [|now left|now left].
  destruct (truthy response) eqn:Ht.
  - destruct (getitem_0 response) as [upd|] eqn:H0; [|now left].
    destruct (getitem_str upd "update_id") as [uid|] eqn:Hid; [|now left].
    destruct (add_1 uid) as [n|] eqn:Hn; [|now left].
    right. exists response. cbn [fst snd]. repeat split; [exact Ht|].
    intros u Hu. cbn [set_offset self offset].
    destruct response as [| | | |[|[| | | | |d| |] l]| | |]; try discriminate Hu.
    cbn [first_update_id] in Hu. cbn [getitem_0] in H0. injection H0 as <-.
    cbn [getitem_str] in Hid.
    destruct (dict_get d "update_id") as [[| |k| | | | |]|]; try discriminate Hu.
    injection Hu as ->. injection Hid as <-. cbn [add_1] in Hn. now injection Hn as <-.
  - left. split; [exact Hself|].
    destruct response as [| | | |[|x l]| | |]; try reflexivity. discriminate Ht.
Qed.

(** One call under the hypothesis on polls: the cursor does not decrease,
    and it is one more than the id of the update the call returned. *)
Lemma perform_step (o : op) (script : list outcome) (s : state) :
  let e := Entry o s (perform o script s).1.1 (perform o script s).2 in
  honours_offset e ->
  (offset (self s) <= offset (self (after e)))%Z
  /\ forall u, returned e = Some u ->
       (offset (self s) <= u)%Z /\ offset (self (after e)) = (u + 1)%Z.
Proof.
  cbv zeta. unfold honours_offset, returned. cbn [done result before after].
  destruct o; cbn [perform];
    try (intros _; unfold sendMsgToAdmin, sendMsg, sendKeyboard, deletMessage;
         rewrite sendRequest_self; split; [lia | discriminate]).
  intros Hh. destruct (getUpdate_cases script s) as [[Hself Hnone] | (resp & Hr & Ht & Hu)].
  - rewrite Hself, Hnone. split; [lia | discriminate].
  - destruct (Hh resp Hr Ht) as (u & Hfirst & Hle).
    rewrite Hfirst. rewrite (Hu u Hfirst). split; [lia|].
    intros u' [= <-]. split; [exact Hle | reflexivity].
Qed.

Lemma returned_ids_cons (e : entry) (l : list entry) :
  returned_ids (e :: l)
  = match returned e with
    | Some u => u :: returned_ids l
    | None => returned_ids l
    end.
Proof. reflexivity. Qed.

(** The invariant behind the amended claim: the cursor is above every id
    returned so far. *)
Lemma perform_all_invariant (ops : list op) (script : list outcome) (s : state)
      (seen : list Z) :
  (forall x, In x seen -> (x < offset (self s))%Z) ->
  Forall honours_offset (perform_all ops script s) ->
  Forall (fun e => (offset (self (before e)) <= offset (self (after e)))%Z)
         (perform_all ops script s)
  /\ forall pre e post u,
       perform_all ops script s = pre ++ e :: post -> returned e = Some u ->
       offset (self (after e)) = (1 + maximum u (seen ++ returned_ids pre))%Z.
Proof.
  revert script s seen. induction ops as [|o ops IH]; intros script s seen Hseen Hh.
  - split; [constructor|]. intros pre e post u Heq. now destruct pre.
  - cbn [perform_all] in *.
    pose proof (perform_step o script s) as Hstep. cbv zeta in Hstep.
    destruct (perform o script s) as [[r rest] s1]. cbn [fst snd] in Hstep.
    inversion Hh as [|e0 l0 Hh0 Hhl]; subst. specialize (Hstep Hh0).
    cbn [after] in Hstep. destruct Hstep as [Hmono Hret].
    set (seen1 := seen ++ match returned (Entry o s r s1) with Some u => [u] | None => [] end).
    assert (Hseen1 : forall x, In x seen1 -> (x < offset (self s1))%Z).
    { intros x Hx. apply in_app_or in Hx as [Hx|Hx].
      - specialize (Hseen x Hx). lia.
      - destruct (returned (Entry o s r s1)) as [u|] eqn:Hu; [|destruct Hx].
        destruct Hx as [<-|[]]. destruct (Hret u eq_refl) as [_ ->]. lia. }
    destruct (IH rest s1 seen1 Hseen1 Hhl) as [IHm IHr]. split.
    + constructor; [exact Hmono | exact IHm].
    + intros pre e post u Heq He. destruct pre as [|e1 pre].
      * cbn [app] in Heq. injection Heq as <- _. cbn [after].
        destruct (Hret u He) as [Hle ->]. cbn [returned_ids omap]. rewrite app_nil_r.
        rewrite maximum_bound; [lia|]. intros x Hx. specialize (Hseen x Hx). lia.
      * cbn [app] in Heq. injection Heq as <- Heq.
        rewrite (IHr pre e post u Heq He). f_equal. f_equal.
        unfold seen1. rewrite returned_ids_cons.
        destruct (returned (Entry o s r s1)).
        -- now rewrite <- app_assoc.
        -- now rewrite app_nil_r.
Qed.

(** The states of a log are chained: each call starts where the call
    before it ended. *)
Lemma perform_all_chain (ops : list op) (script : list outcome) (s : state) :
  map before (perform_all ops script s)
  = removelast (s :: map after (perform_all ops script s)).
Proof.
  revert script s. induction ops as [|o ops IH]; intros script s; [reflexivity|].
  cbn [perform_all]. destruct (perform o script s) as [[r rest] s1].
  cbn [map before after]. rewrite IH.
  destruct (map after (perform_all ops rest s1)); reflexivity.
Qed.

(** C8 (as amended). Across every sequence of operations in which each poll
    that returns an update returns one whose integer id is not below the
    cursor it was asked with, the cursor never decreases, and after each
    poll that returns an update it equals 1 + the maximum update id
    returned so far. *)
Theorem cursor_monotone (ops : list op) (script : list outcome) (s : state) :
  Forall honours_offset (perform_all ops script s) ->
  Forall (fun e => (offset (self (before e)) <= offset (self (after e)))%Z)
         (perform_all ops script s)
  /\ forall pre e post u,
       perform_all ops script s = pre ++ e :: post -> returned e = Some u ->
       offset (self (after e)) = (1 + maximum u (returned_ids pre))%Z.
Proof.
  intros Hh. apply (perform_all_invariant ops script s []); [intros x []|exact Hh].
Qed.
End Monotone.

Section MonotoneExamples.
Import Py TelegramBot Session Reference.

Lemma cursor_monotone_witness :
  let ops := [GetUpdate; SendMsg (PInt 42) (PStr "hello"); GetUpdate; GetUpdate] in
  let script := [Loads (ok_envelope (PList [update 5]));
                 Loads (ok_envelope (PBool true));
                 Loads (ok_envelope (PList []));
                 Loads (ok_envelope (PList [update 7]))] in
  let log := perform_all (RT := runtime) ops script (fresh bot_plain) in
  Forall honours_offset log
  /\ Forall (fun e => (offset (self (before e)) <= offset (self (after e)))%Z) log
  /\ forall pre e post u,
       log = pre ++ e :: post -> returned e = Some u ->
       offset (self (after e)) = (1 + maximum u (returned_ids pre))%Z.
Proof.
  cbv zeta.
  assert (H : Forall honours_offset
                (perform_all (RT := runtime)
                   [GetUpdate; SendMsg (PInt 42) (PStr "hello"); GetUpdate; GetUpdate]
                   [Loads (ok_envelope (PList [update 5]));
                    Loads (ok_envelope (PBool true));
                    Loads (ok_envelope (PList []));
                    Loads (ok_envelope (PList [update 7]))] (fresh bot_plain))).
  { repeat constructor.
    - intros response [= <-] _. exists 5%Z. split; [reflexivity | vm_compute; discriminate].
    - intros response [= <-] Ht. discriminate Ht.
    - intros response [= <-] _. exists 7%Z. split; [reflexivity | vm_compute; discriminate]. }
  split; [exact H|]. exact (cursor_monotone _ _ _ H).
Defined.

(** C8 as stated fails: when a poll returns the update 9 and the next one
    the update 5, the cursor goes from 10 back to 6, which is not
    1 + the maximum of 9 and 5. *)
Lemma cursor_moves_back :
  let log := perform_all (RT := runtime) [GetUpdate; GetUpdate]
               [Loads (ok_envelope (PList [update 9]));
                Loads (ok_envelope (PList [update 5]))] (fresh bot_plain) in
  exists pre e post,
    log = pre ++ e :: post
    /\ returned_ids pre = [9%Z] /\ returned e = Some 5%Z
    /\ (offset (self (after e)) < offset (self (before e)))%Z
    /\ offset (self (after e)) <> (1 + maximum 5 (returned_ids pre))%Z.
Proof.
  cbv zeta. eexists [_], _, []. split; [reflexivity|].
  repeat split; vm_compute; congruence.
Qed.
End MonotoneExamples.

(** * Error reporting *)
Section Reporting.
Import Py TelegramBot Session.
Context {RT : Runtime}.

(** ** The log file *)

Lemma refused_false (path : string) (s : state) :
  Json.is_empty path = false -> path ∉ denied s -> refused path s = false.
Proof.
  intros Hne Hd. unfold refused. rewrite Hne. cbn [orb].
  now apply bool_decide_eq_false.
Qed.


(** [writeLog] with a message that is not a [str]: the file is opened, and
    so exists, but [TypeError] is raised before anything is written. *)
Lemma writeLog_not_str (msg : pyval) (path : string) (s : state) :
  LOGFILEPATH (self s) = Some path -> Json.is_empty path = false ->
  path ∉ denied s ->
  (forall text, msg <> PStr text) ->
  exists s',
    writeLog msg s = (Raise TypeError, s')
    /\ files s' !! path = Some (default EmptyString (files s !! path))
    /\ (forall other, other <> path -> files s' !! other = files s !! other)
    /\ sent s' = sent s /\ self s' = self s.
Proof.
  intros Hpath Hne Hd Hmsg. unfold writeLog. rewrite Hpath, refused_false by assumption.
  destruct msg; try (exfalso; eapply Hmsg; reflexivity);
    (eexists; split; [reflexivity|];
     cbn [open_append tick files sent self ticks]; repeat split;
     [ now rewrite lookup_insert_eq
     | intros other Hother; now rewrite lookup_insert_ne by congruence ]).
Qed.

(** [writeLog] on a path that [open] refuses: [OSError], and nothing has
    changed. *)
Lemma writeLog_refused (msg : pyval) (path : string) (s : state) :
  LOGFILEPATH (self s) = Some path -> path ∈ denied s ->
  writeLog msg s = (Raise OSError, s).
Proof.
  intros Hpath Hd. unfold writeLog, refused. rewrite Hpath.
  rewrite (bool_decide_eq_true_2 _ Hd). now rewrite orb_true_r.
Qed.

Lemma writeLog_sent (msg : pyval) (s : state) : sent (writeLog msg s).2 = sent s.
Proof.
  unfold writeLog. destruct (LOGFILEPATH (self s)) as [path|]; [|reflexivity].
  destruct (refused path s); [reflexivity|]. destruct msg; reflexivity.
Qed.



(** ** The requests issued *)

Lemma bind_ret_state {A B : Type} (m : run A) (b : B) :
  (bind m (fun _ rest s => (Ret b, rest, s))).2 = m.2.
Proof. now destruct m as [[[a|e|] rest] s]. Qed.

Lemma report_sent (send : pyval -> state -> run pyval) (rest : list outcome)
      (msg : pyval) (s : state) :
  sent (report send rest msg s).2
  = if admin_set (self s) then sent (send msg s).2 else sent s.
Proof.
  unfold report.
  destruct (admin_set (self s)).
  - destruct (send msg s) as [[[v|e|] rest'] s1]; cbn [bind snd] in *; try reflexivity.
    destruct (log_set (self s1)); [|reflexivity].
    pose proof (writeLog_sent msg s1) as Hw. now destruct (writeLog msg s1).
  - cbn [bind]. destruct (log_set (self s)); [|reflexivity].
    pose proof (writeLog_sent msg s) as Hw. now destruct (writeLog msg s).
Qed.

Lemma sendMsgToAdmin_self (script : list outcome) (msg : pyval) (s : state) :
  self (sendMsgToAdmin script msg s).2 = self s.
Proof. apply sendRequest_self. Qed.

(** The requests of a call: its own, and then, when it fails with a
    failure that gets reported and an administrator chat is set, those of
    the notification. *)
Lemma sendRequest_within_sent (room : nat) (o : outcome) (rest : list outcome)
      (method : string) (data : list (string * pyval)) (s : state) :
  sent (sendRequest_within room (o :: rest) method data s).2
  = if reported o && admin_set (self s)
    then sent (sendMsgToAdmin_within room o rest (failure_msg (self s) method data o)
                 (issue (Request (URL (self s) +:+ method) data) s)).2
    else sent s ++ [Request (URL (self s) +:+ method) data].
Proof.
  destruct (outcome_cases o) as [Hf | [(filename & body & -> & Hd) | Hf]].
  - rewrite sendRequest_within_failure by exact Hf. cbv zeta.
    rewrite bind_ret_state, report_sent, Hf.
    cbn [issue self andb]. now destruct (admin_set (self s)).
  - rewrite sendRequest_within_undecodable by exact Hd.
    cbn [reported]. now rewrite Hd.
  - destruct (sendRequest_within_answer room o rest method data s Hf) as [r ->].
    destruct (reported o) eqn:Hr; [|reflexivity].
    apply reported_failure in Hr. congruence.
Qed.

Lemma sendRequest_within_sent_prefix (room : nat) (script : list outcome)
      (method : string) (data : list (string * pyval)) (s : state) :
  exists further,
    sent (sendRequest_within room script method data s).2
    = sent s ++ Request (URL (self s) +:+ method) data :: further
    /\ ((forall o, head script = Some o -> is_failure o = false) -> further = []).
Proof.
  revert room method data s.
  induction script as [|o rest IH]; intros room method data s.
  - exists []. rewrite sendRequest_within_nil. split; reflexivity.
  - rewrite sendRequest_within_sent. destruct (reported o) eqn:Hf; cbn [andb].
    + destruct (admin_set (self s)).
      * unfold sendMsgToAdmin_within. destruct (calls o <=? room)%nat.
        2:{ exists []. split; [reflexivity|]. reflexivity. }
        -- destruct (IH (room - calls o)%nat "sendMessage"
                        [("chat_id", PInt (ADMINCHATID (self (issue (Request (URL (self s) +:+ method) data) s))));
                         ("text", failure_msg (self s) method data o)]
                        (issue (Request (URL (self s) +:+ method) data) s))
             as (further & -> & _).
           eexists. split.
           ++ cbn [issue sent self]. rewrite <- app_assoc. reflexivity.
           ++ intros H. specialize (H o eq_refl). apply reported_failure in Hf. congruence.
      * exists []. split; [reflexivity|]. reflexivity.
    + exists []. split; reflexivity.
Qed.

Lemma sendRequest_sent_prefix (script : list outcome) (method : string)
      (data : list (string * pyval)) (s : state) :
  exists further,
    sent (sendRequest script method data s).2
    = sent s ++ Request (URL (self s) +:+ method) data :: further
    /\ ((forall o, head script = Some o -> is_failure o = false) -> further = []).
Proof. apply sendRequest_within_sent_prefix. Qed.
End Reporting.

Section Absorbed.
Import Py TelegramBot Session.
Context {RT : Runtime}.










End Absorbed.

Section Notifications.
Import Py TelegramBot Session.
Context {RT : Runtime}.

(** C5. When the response to a request is an envelope whose [ok] is false
    and an administrator chat id is set, the request is followed by one
    notification, a [sendMessage] to the administrator chat whose [text]
    is the envelope itself, so that it holds the [description] of the
    envelope; any request after it belongs to the handling of a failure
    of the notification, and there is none when the notification does not
    fail. *)
Theorem negative_envelope_notifies_admin (d : list (string * pyval)) (description : pyval)
        (rest : list outcome) (method : string) (data : list (string * pyval)) (s : state) :
  admin_set (self s) = true ->
  dict_get d "ok" = Some (PBool false) ->
  dict_get d "description" = Some description ->
  exists further,
    sent (sendRequest (Loads (PDict d) :: rest) method data s).2
    = sent s ++ [Request (URL (self s) +:+ method) data;
                 notification (self s) (PDict d)] ++ further
    /\ dict_get (fields (notification (self s) (PDict d))) "chat_id"
       = Some (PInt (ADMINCHATID (self s)))
    /\ dict_get (fields (notification (self s) (PDict d))) "text" = Some (PDict d)
    /\ getitem_str (PDict d) "description" = inl description
    /\ ((forall o, head rest = Some o -> is_failure o = false) -> further = []).
Proof.
  intros Hadmin Hok Hdescr. unfold sendRequest.
  rewrite sendRequest_within_sent. cbn [reported is_failure getitem_str]. rewrite Hok, Hadmin.
  cbn [truthy negb andb failure_msg].
  change (sendMsgToAdmin_within (4 + stack) (Loads (PDict d)) rest)
    with (fun msg s0 =>
            sendRequest_within (S stack) rest "sendMessage"
              [("chat_id", PInt (ADMINCHATID (self s0))); ("text", msg)] s0).
  cbv beta.
  destruct (sendRequest_within_sent_prefix (S stack) rest "sendMessage"
              [("chat_id", PInt (ADMINCHATID (self (issue (Request (URL (self s) +:+ method) data) s))));
               ("text", PDict d)]
              (issue (Request (URL (self s) +:+ method) data) s)) as (further & -> & Hnone).
  exists further. repeat split.
  - cbn [issue sent self]. rewrite <- app_assoc. reflexivity.
  - cbn [getitem_str]. now rewrite Hdescr.
  - exact Hnone.
Qed.

(** The requests of a chain of failures that fits the room: the request,
    and one notification for each failure. *)
Lemma sendRequest_within_chain (room : nat) (failures rest : list outcome)
      (method : string) (data : list (string * pyval)) (s : state) :
  admin_set (self s) = true ->
  Forall (fun f => reported f = true) failures ->
  (stack_use failures <= room)%nat ->
  exists further,
    sent (sendRequest_within room (failures ++ rest) method data s).2
    = sent s ++ Request (URL (self s) +:+ method) data
                :: notifications (self s) method data failures ++ further
    /\ ((forall o, head rest = Some o -> is_failure o = false) -> further = []).
Proof.
  intros Hadmin Hfail. revert room method data s Hadmin.
  induction Hfail as [|f failures Hf Hrest IH]; intros room method data s Hadmin Hroom.
  - cbn [app notifications]. apply sendRequest_within_sent_prefix.
  - change (stack_use (f :: failures)) with (calls f + stack_use failures)%nat in Hroom.
    assert (Hc : (calls f <=? room)%nat = true) by (apply Nat.leb_le; lia).
    cbn [app]. rewrite sendRequest_within_sent, Hf, Hadmin.
    cbn [andb]. unfold sendMsgToAdmin_within. rewrite Hc.
    set (s1 := issue (Request (URL (self s) +:+ method) data) s).
    destruct (IH (room - calls f)%nat "sendMessage"
                 [("chat_id", PInt (ADMINCHATID (self s1)));
                  ("text", failure_msg (self s) method data f)] s1 Hadmin)
      as (further & -> & Hnone).
    { lia. }
    exists further. split; [|exact Hnone].
    unfold s1. cbn [issue sent self notifications]. unfold notification.
    rewrite <- app_assoc. reflexivity.
Qed.

(** C6 (as amended). A failure of the notification sent by error handling
    is not dropped: [sendRequest] handles it like the failure of any other
    request. With an administrator chat set, a request and the
    notifications after it that fail one after the other, each with a
    failure that gets reported and the calls of their notifications no
    more than the stack has room for, are each followed by a notification
    reporting that failure; no request follows the last of these
    notifications when it does not fail. *)
Theorem failed_notification_is_reported (failures rest : list outcome)
        (method : string) (data : list (string * pyval)) (s : state) :
  admin_set (self s) = true ->
  Forall (fun f => reported f = true) failures ->
  (stack_use failures <= 4 + stack)%nat ->
  exists further,
    sent (sendRequest (failures ++ rest) method data s).2
    = sent s ++ Request (URL (self s) +:+ method) data
                :: notifications (self s) method data failures ++ further
    /\ ((forall o, head rest = Some o -> is_failure o = false) -> further = []).
Proof. intros Hadmin Hfail Hroom. now apply sendRequest_within_chain. Qed.

Lemma sendRequest_within_overflow (room : nat) (failures : list outcome) (f : outcome)
      (rest : list outcome) (method : string) (data : list (string * pyval)) (s : state) :
  admin_set (self s) = true ->
  Forall (fun f => reported f = true) failures -> reported f = true ->
  (stack_use failures <= room)%nat -> (room < stack_use failures + calls f)%nat ->
  exists s',
    sendRequest_within room (failures ++ f :: rest) method data s
    = (Raise RecursionError, rest, s')
    /\ sent s' = sent s ++ Request (URL (self s) +:+ method) data
                         :: notifications (self s) method data failures
    /\ files s' = files s.
Proof.
  intros Hadmin Hfail Hf. revert room method data s Hadmin.
  induction Hfail as [|g failures Hg Hrest IH]; intros room method data s Hadmin Hfit Hover.
  - cbn [stack_use fold_right] in Hover.
    assert (Hc : (calls f <=? room)%nat = false) by (apply Nat.leb_gt; lia).
    cbn [app]. rewrite sendRequest_within_failure by exact Hf. cbv zeta.
    set (s1 := issue (Request (URL (self s) +:+ method) data) s).
    unfold report. change (admin_set (self s1)) with (admin_set (self s)). rewrite Hadmin.
    unfold sendMsgToAdmin_within. rewrite Hc. cbn [bind notifications].
    exists s1. split; [reflexivity|]. split; reflexivity.
  - change (stack_use (g :: failures)) with (calls g + stack_use failures)%nat in Hfit, Hover.
    assert (Hc : (calls g <=? room)%nat = true) by (apply Nat.leb_le; lia).
    cbn [app]. rewrite sendRequest_within_failure by exact Hg. cbv zeta.
    set (s1 := issue (Request (URL (self s) +:+ method) data) s).
    unfold report. change (admin_set (self s1)) with (admin_set (self s)). rewrite Hadmin.
    unfold sendMsgToAdmin_within. rewrite Hc.
    destruct (IH (room - calls g)%nat "sendMessage"
                 [("chat_id", PInt (ADMINCHATID (self s1)));
                  ("text", failure_msg (self s1) method data g)] s1 Hadmin)
      as (s2 & -> & Hsent & Hfiles).
    { lia. }
    { lia. }
    cbn [bind]. exists s2. split; [reflexivity|]. split; [|exact Hfiles].
    rewrite Hsent. unfold s1. cbn [issue sent self notifications]. unfold notification.
    rewrite <- app_assoc. reflexivity.
Qed.

(** X18. Error handling is bounded by the interpreter's stack only. With
    an administrator chat set, a request and the notifications after it
    fail one after the other with failures that get reported; the calls of
    their notifications fit the stack, those of the notification for one
    more failure do not. Then [RecursionError] is raised by the calls for
    that notification and escapes [sendRequest]. A notification has been
    sent for every failure but the last, and nothing has been written to
    the log, since each level writes it after its notification has
    returned. *)
Theorem recursion_error_escapes (failures : list outcome) (f : outcome)
      (rest : list outcome) (method : string) (data : list (string * pyval)) (s : state) :
  admin_set (self s) = true ->
  Forall (fun f => reported f = true) failures -> reported f = true ->
  (stack_use failures <= 4 + stack)%nat ->
  (4 + stack < stack_use failures + calls f)%nat ->
  exists s',
    sendRequest (failures ++ f :: rest) method data s = (Raise RecursionError, rest, s')
    /\ sent s' = sent s ++ Request (URL (self s) +:+ method) data
                         :: notifications (self s) method data failures
    /\ files s' = files s.
Proof. intros Hadmin Hfail Hf Hfit Hover. now apply sendRequest_within_overflow. Qed.

(** ** What the diagnostic of an exception is made of *)

(** None of the four names removed by [errorHandler] is a local variable
    of [sendRequest]: the captured locals are reported whole. *)
Lemma pops_remove_nothing (b : t) (method : string) (data : list (string * pyval))
      (e : exn) :
  dict_pop "url" (dict_pop "keyboard" (dict_pop "text" (dict_pop "chatID"
    (frame_locals b method data e))))
  = frame_locals b method data e.
Proof. unfold frame_locals. destruct (exn_connected e); reflexivity. Qed.

(** The reported locals bind [data] to the encoded body of the request,
    which is made of the chat id, the text and the keyboard. *)
Lemma diagnostic_has_data (b : t) (method : string) (data : list (string * pyval))
      (e : exn) :
  failure_msg b method data (Raises e)
  = PStr (exn_str e +:+ NL +:+ exn_frame e +:+ NL
            +:+ str_locals (frame_locals b method data e))
  /\ dict_get (frame_locals b method data e) "data" = Some (LBytes (urlencode data)).
Proof.
  split; [|reflexivity].
  cbn [failure_msg error_msg]. now rewrite pops_remove_nothing.
Qed.
End Notifications.

(** * What reaches the log file *)
Section Logging.
Import Py TelegramBot Session.
Context {RT : Runtime}.




(** X19. A negative envelope with no administrator chat and a log path
    that [open] accepts: [writeLog] is handed the envelope, which is not a
    [str]; [TypeError] escapes and the content of the file is what it
    was. *)
Theorem negative_envelope_raises (response : pyval) (ok : pyval) (rest : list outcome)
      (method : string) (data : list (string * pyval)) (path : string) (s : state) :
  getitem_str response "ok" = inl ok -> truthy ok = false ->
  admin_set (self s) = false ->
  LOGFILEPATH (self s) = Some path -> Json.is_empty path = false ->
  path ∉ denied s ->
  exists s',
    sendRequest (Loads response :: rest) method data s = (Raise TypeError, rest, s')
    /\ default EmptyString (files s' !! path) = default EmptyString (files s !! path)
    /\ (forall other, other <> path -> files s' !! other = files s !! other).
Proof.
  intros Hok Ht Hadmin Hpath Hne Hden. unfold sendRequest.
  rewrite sendRequest_within_cons. cbv zeta. rewrite Hok, Ht. cbn [negb].
  set (s1 := issue _ s). unfold report.
  change (admin_set (self s1)) with (admin_set (self s)). rewrite Hadmin. cbn [bind].
  assert (Hlog : log_set (self s1) = true).
  { unfold log_set. change (self s1) with (self s). now rewrite Hpath, Hne. }
  rewrite Hlog.
  assert (Hdict : forall text, response <> PStr text).
  { intros text ->. discriminate Hok. }
  destruct (writeLog_not_str response path s1 Hpath Hne Hden Hdict)
    as (s' & -> & Hfile & Hother & _).
  exists s'. cbn [bind]. split; [reflexivity|]. split; [|exact Hother].
  rewrite Hfile. reflexivity.
Qed.

(** X23. An [HTTPError] whose body is not UTF-8: [decode] raises while
    [errorHandler] builds the message, before either report is made.
    [UnicodeDecodeError] escapes [sendRequest] whatever the configuration,
    with nothing sent to the administrator and nothing logged. *)
Theorem undecodable_body_escapes (filename body : string) (rest : list outcome)
      (method : string) (data : list (string * pyval)) (s : state) :
  decode body = None ->
  sendRequest (RaisesHTTPError filename body :: rest) method data s
  = (Raise UnicodeDecodeError, rest, issue (Request (URL (self s) +:+ method) data) s).
Proof. apply sendRequest_within_undecodable. Qed.

(** X24. A log path that [open] refuses: for an exception in the [try]
    block that gets reported, with no administrator chat, [OSError]
    escapes [sendRequest] and nothing is written. *)
Theorem refused_log_escapes (o : outcome) (rest : list outcome) (method : string)
      (data : list (string * pyval)) (path : string) (s : state) :
  reported o = true ->
  admin_set (self s) = false ->
  LOGFILEPATH (self s) = Some path -> Json.is_empty path = false ->
  path ∈ denied s ->
  sendRequest (o :: rest) method data s
  = (Raise OSError, rest, issue (Request (URL (self s) +:+ method) data) s).
Proof.
  intros Hf Hadmin Hpath Hne Hden.
  rewrite sendRequest_failure by exact Hf. cbv zeta.
  set (s1 := issue _ s). unfold report.
  change (admin_set (self s1)) with (admin_set (self s)). rewrite Hadmin. cbn [bind].
  assert (Hlog : log_set (self s1) = true).
  { unfold log_set. change (self s1) with (self s). now rewrite Hpath, Hne. }
  rewrite Hlog, (writeLog_refused _ path s1 Hpath Hden). reflexivity.
Qed.
End Logging.

(** * Worked scenarios *)
Section Scenarios.
Import Py TelegramBot Session Reference.

(** Polls that return the updates 5, 7 and 9: the cursor is 6, 8 and 10,
    and the polls are asked with the offsets 0, 6 and 8. *)
Lemma getUpdate_cursor_witness :
  let ps := [Update 5; Update 7; Update 9] in
  let script := [Loads (ok_envelope (PList [update 5]));
                 Loads (ok_envelope (PList [update 7]));
                 Loads (ok_envelope (PList [update 9]))] in
  let log := perform_all (RT := runtime) [GetUpdate; GetUpdate; GetUpdate] script
                         (fresh bot_plain) in
  Forall2 replies ps script
  /\ map (fun e => offset (self (after e))) log = [6; 8; 10]%Z
  /\ sent (List.last (map after log) (fresh bot_plain))
     = map (poll_request bot_plain) [0; 6; 8]%Z.
Proof.
  cbv zeta.
  assert (H : Forall2 replies [Update 5; Update 7; Update 9]
                [Loads (ok_envelope (PList [update 5]));
                 Loads (ok_envelope (PList [update 7]));
                 Loads (ok_envelope (PList [update 9]))]).
  { repeat constructor; eexists _, _, _; (split; [reflexivity|]);
      repeat (split; [reflexivity|]); eexists _, _; split; reflexivity. }
  split; [exact H|].
  exact (getUpdate_cursor (RT := runtime) _ _ (fresh bot_plain) H).
Defined.



(** So does the [TypeError] for a body that is not an object at all. *)
Lemma list_body_raises :
  (sendMsg (RT := runtime) [Loads (PList [])] (PInt 42) (PStr "hello") (fresh bot_plain)).1.1
  = Raise TypeError.
Proof. reflexivity. Qed.

Lemma negative_envelope_notifies_admin_witness :
  let d := [("ok", PBool false); ("error_code", PInt 400);
            ("description", PStr "Bad Request: chat not found")] in
  let s := fresh bot_admin in
  admin_set (self s) = true
  /\ dict_get d "ok" = Some (PBool false)
  /\ dict_get d "description" = Some (PStr "Bad Request: chat not found")
  /\ exists further,
       sent (sendRequest (RT := runtime)
               (Loads (PDict d) :: [Loads (ok_envelope (PBool true))])
               "deleteMessage" [("chat_id", PInt 42); ("message_id", PInt 7)] s).2
       = sent s ++ [Request (URL (self s) +:+ "deleteMessage")
                            [("chat_id", PInt 42); ("message_id", PInt 7)];
                    notification (self s) (PDict d)] ++ further
       /\ dict_get (fields (notification (self s) (PDict d))) "chat_id"
          = Some (PInt (ADMINCHATID (self s)))
       /\ dict_get (fields (notification (self s) (PDict d))) "text" = Some (PDict d)
       /\ getitem_str (PDict d) "description" = inl (PStr "Bad Request: chat not found")
       /\ ((forall o, head [Loads (ok_envelope (PBool true))] = Some o -> is_failure o = false)
           -> further = []).
Proof.
  cbv zeta. split; [reflexivity|]. split; [reflexivity|]. split; [reflexivity|].
  exact (negative_envelope_notifies_admin (RT := runtime)
           [("ok", PBool false); ("error_code", PInt 400);
            ("description", PStr "Bad Request: chat not found")]
           (PStr "Bad Request: chat not found")
           [Loads (ok_envelope (PBool true))]
           "deleteMessage" [("chat_id", PInt 42); ("message_id", PInt 7)]
           (fresh bot_admin) eq_refl eq_refl eq_refl).
Defined.

Lemma failed_notification_is_reported_witness :
  let failures := [Raises unreachable; RaisesHTTPError "https://api.telegram.org/" "Bad Gateway"] in
  let rest := [Loads (ok_envelope (PBool true))] in
  let s := fresh bot_both in
  admin_set (self s) = true
  /\ Forall (fun f => reported (RT := runtime) f = true) failures
  /\ (stack_use failures <= 4 + stack)%nat
  /\ exists further,
       sent (sendRequest (RT := runtime) (failures ++ rest) "sendMessage"
                         [("chat_id", PInt 42); ("text", PStr "hello")] s).2
       = sent s ++ Request (URL (self s) +:+ "sendMessage")
                           [("chat_id", PInt 42); ("text", PStr "hello")]
                   :: notifications (RT := runtime) (self s) "sendMessage"
                        [("chat_id", PInt 42); ("text", PStr "hello")] failures ++ further
       /\ ((forall o, head rest = Some o -> is_failure o = false) -> further = []).
Proof.
  cbv zeta.
  assert (Hf : Forall (fun f => reported (RT := runtime) f = true)
                 [Raises unreachable;
                  RaisesHTTPError "https://api.telegram.org/" "Bad Gateway"]).
  { repeat constructor. }
  assert (Hroom : (stack_use [Raises unreachable;
                              RaisesHTTPError "https://api.telegram.org/" "Bad Gateway"]
                   <= 4 + stack)%nat).
  { apply Nat.leb_le. reflexivity. }
  split; [reflexivity|]. split; [exact Hf|]. split; [exact Hroom|].
  exact (failed_notification_is_reported (RT := runtime)
           [Raises unreachable; RaisesHTTPError "https://api.telegram.org/" "Bad Gateway"]
           [Loads (ok_envelope (PBool true))] "sendMessage"
           [("chat_id", PInt 42); ("text", PStr "hello")] (fresh bot_both)
           eq_refl Hf Hroom).
Defined.

(** C6 as stated fails: the network is down for the message and for the
    notification about it. The failure of the notification is handled in
    turn: a second notification is sent, whose text is the diagnostic of
    the failed notification, and had it failed as well a third would have
    followed. *)
Lemma inner_failure_is_handled_again :
  let r := sendMsg (RT := runtime)
             [Raises unreachable; Raises unreachable; Loads (ok_envelope (PBool true))]
             (PInt 42) (PStr "hello") (fresh bot_admin) in
  let first := failure_msg (RT := runtime) bot_admin "sendMessage"
                 [("chat_id", PInt 42); ("text", PStr "hello")] (Raises unreachable) in
  let second := failure_msg (RT := runtime) bot_admin "sendMessage"
                  [("chat_id", PInt 777); ("text", first)] (Raises unreachable) in
  r.1.2 = []
  /\ sent r.2 = [Request (URL bot_admin +:+ "sendMessage")
                         [("chat_id", PInt 42); ("text", PStr "hello")];
                 notification bot_admin first;
                 notification bot_admin second]
  /\ length (sent r.2) <> 2%nat.
Proof. cbv zeta. split; [reflexivity|]. split; [reflexivity|]. vm_compute. discriminate. Qed.

(** C7: a negative envelope while a log path is set. [writeLog] is handed
    the envelope, a dict; the file is opened, and so created, but adding
    the dict to the text raises [TypeError]: no block is written and the
    exception escapes [sendMsg]. *)
Theorem negative_envelope_is_not_logged :
  let r := sendMsg (RT := runtime) [Loads chat_not_found] (PInt 42) (PStr "hello")
                   (fresh bot_log) in
  r.1.1 = Raise TypeError
  /\ files r.2 !! "bot.log" = Some EmptyString.
Proof. cbv zeta. split; [reflexivity | vm_compute; reflexivity]. Qed.

(** The sibling paths do write the block: the same call when the network
    is down. *)
Lemma exception_is_logged :
  let r := sendMsg (RT := runtime) [Raises unreachable] (PInt 42) (PStr "hello")
                   (fresh bot_log) in
  let msg := error_msg (RT := runtime)
               (OtherError unreachable
                  (frame_locals (RT := runtime) bot_log "sendMessage"
                     [("chat_id", PInt 42); ("text", PStr "hello")] unreachable)) in
  r.1.1 = Ret PNone
  /\ files r.2 !! "bot.log"
     = Some ("----------" +:+ NL +:+ asctime 0 +:+ NL +:+ msg +:+ NL).
Proof. cbv zeta. split; [reflexivity | vm_compute; reflexivity]. Qed.

(** C9: a message with a keyboard is sent while the network is down. The
    diagnostic sent to the administrator and written to the log holds the
    encoded body of the request: the chat id, the text and the keyboard. *)
Theorem diagnostic_leaks_request_data :
  let r := sendKeyboard (RT := runtime)
             [Raises unreachable; Loads (ok_envelope (PBool true))]
             (PInt 42) (PStr "my secret") (PInlineKeyboard [["Pay"]]) (fresh bot_both) in
  exists diagnostic log,
    sent r.2 !! 1%nat = Some (notification bot_both (PStr diagnostic))
    /\ files r.2 !! "bot.log" = Some log
    /\ contains diagnostic "chat_id=42" = true
    /\ contains diagnostic "text=my+secret" = true
    /\ contains diagnostic "reply_markup=%7B%22inline_keyboard%22%3A%5B%5B%7B%22text%22%3A%22Pay%22" = true
    /\ contains log "chat_id=42&text=my+secret&reply_markup=" = true.
Proof.
  cbv zeta. eexists _, _. split; [vm_compute; reflexivity|].
  split; [vm_compute; reflexivity|]. repeat split; vm_compute; reflexivity.
Qed.
End Scenarios.

(** * Further facts about the transport *)
Section TransportMore.
Import Py TelegramBot Session.
Context {RT : Runtime}.

Lemma bind_none_value {A : Type} (m : run A) (v : pyval) (rest : list outcome) (s : state) :
  bind m (fun _ rest s => (Ret PNone, rest, s)) = (Ret v, rest, s) -> v = PNone.
Proof. destruct m as [[[a|e|] rest'] s']; cbn [bind]; congruence. Qed.

Lemma report_rest (send : pyval -> state -> run pyval) (rest : list outcome)
      (msg : pyval) (s : state) :
  admin_set (self s) = false -> (report send rest msg s).1.2 = rest.
Proof.
  intros Hadmin. unfold report. rewrite Hadmin. cbn [bind].
  destruct (log_set (self s)); [|reflexivity]. now destruct (writeLog msg s).
Qed.

Lemma bind_ret_rest {A B : Type} (m : run A) (b : B) :
  (bind m (fun _ rest s => (Ret b, rest, s))).1.2 = m.1.2.
Proof. now destruct m as [[[a|e|] rest] s]. Qed.

(** X1. With neither an administrator chat nor a log path set, a failure
    that gets reported (an exception in the [try] block, an [HTTPError]
    whose body decodes, a negative envelope) is absorbed without a trace:
    [sendRequest] returns [None], consumes the one outcome, and the state
    differs from the state before the call by the issued request only. *)
Theorem failure_without_reporters (o : outcome) (rest : list outcome) (method : string)
        (data : list (string * pyval)) (s : state) :
  admin_set (self s) = false -> log_set (self s) = false -> reported o = true ->
  sendRequest (o :: rest) method data s
  = (Ret PNone, rest, issue (Request (URL (self s) +:+ method) data) s).
Proof.
  intros Hadmin Hlog Hf. rewrite sendRequest_failure by exact Hf. cbv zeta.
  unfold report. set (s1 := issue _ s).
  change (admin_set (self s1)) with (admin_set (self s)). rewrite Hadmin. cbn [bind].
  change (log_set (self s1)) with (log_set (self s)). rewrite Hlog. reflexivity.
Qed.

(** X2. Without an administrator chat there is no second request: whatever
    the outcome is, a failure, an envelope or a body that makes the call
    raise, [sendRequest] issues exactly one request and consumes exactly
    one outcome. *)
Theorem single_request_without_admin (o : outcome) (rest : list outcome) (method : string)
        (data : list (string * pyval)) (s : state) :
  admin_set (self s) = false ->
  (sendRequest (o :: rest) method data s).1.2 = rest
  /\ sent (sendRequest (o :: rest) method data s).2
     = sent s ++ [Request (URL (self s) +:+ method) data].
Proof.
  intros Hadmin. unfold sendRequest. split.
  - destruct (outcome_cases o) as [Hf | [(filename & body & -> & Hd) | Hf]].
    + rewrite sendRequest_within_failure by exact Hf. cbv zeta.
      rewrite bind_ret_rest. now apply report_rest.
    + now rewrite sendRequest_within_undecodable.
    + now destruct (sendRequest_within_answer (4 + stack) o rest method data s Hf) as [r ->].
  - rewrite sendRequest_within_sent, Hadmin. now rewrite andb_false_r.
Qed.

(** X3. A value other than [None] returned by [sendRequest] is always the
    [result] of an envelope whose [ok] is true, received for the request
    itself: one outcome was consumed and nothing was reported. *)
Theorem returned_value_is_result (script rest : list outcome) (method : string)
        (data : list (string * pyval)) (s s' : state) (v : pyval) :
  sendRequest script method data s = (Ret v, rest, s') -> v <> PNone ->
  exists d ok,
    script = Loads (PDict d) :: rest
    /\ dict_get d "ok" = Some ok /\ truthy ok = true
    /\ dict_get d "result" = Some v
    /\ s' = issue (Request (URL (self s) +:+ method) data) s.
Proof.
  unfold sendRequest. intros H Hv. destruct script as [|o script]; [discriminate H|].
  destruct (outcome_cases o) as [Hf | [(filename & body & -> & Hd) | Hf]].
  - rewrite sendRequest_within_failure in H by exact Hf. cbv zeta in H.
    destruct (report _ _ _ _) as [[[a|e|] rest'] s1]; cbn [bind] in H; congruence.
  - rewrite sendRequest_within_undecodable in H by exact Hd. discriminate H.
  - rewrite sendRequest_within_cons in H. cbv zeta in H.
    destruct o as [e|filename body|response]; try discriminate Hf.
    cbn [is_failure] in Hf.
    destruct response as [| | | | |d| |]; try discriminate H.
    cbn [getitem_str] in *.
    destruct (dict_get d "ok") as [ok|] eqn:Hok; [|discriminate H].
    rewrite Hf in H. apply negb_false_iff in Hf.
    destruct (dict_get d "result") as [result|] eqn:Hres; [|discriminate H].
    injection H as <- <- <-. now exists d, ok.
Qed.

(** X4. [sendMsgToAdmin] itself does not look at [ADMINCHATID]: called
    directly it always issues a [sendMessage] request addressed to the
    value of [ADMINCHATID], also when that value is the 0 of a bot without
    administrator. *)
Theorem sendMsgToAdmin_always_sends (script : list outcome) (msg : pyval) (s : state) :
  exists further,
    sent (sendMsgToAdmin script msg s).2 = sent s ++ notification (self s) msg :: further.
Proof.
  unfold sendMsgToAdmin, sendMsg.
  destruct (sendRequest_sent_prefix script "sendMessage"
              [("chat_id", PInt (ADMINCHATID (self s))); ("text", msg)] s)
    as (further & H & _).
  now exists further.
Qed.
End TransportMore.

(** * Further facts about polls and reports *)
Section PollsMore.
Import Py TelegramBot Session.
Context {RT : Runtime}.

(** X5. [getUpdate] touches the object only when it returns a true value:
    when it returns [None] or an empty result, when an exception escapes
    it, the cursor and every other field are as before the call. *)
Theorem getUpdate_keeps_cursor (script : list outcome) (s : state) :
  (forall response, (getUpdate script s).1.1 = Ret response -> truthy response = false) ->
  self (getUpdate script s).2 = self s.
Proof.
  intros H. destruct (getUpdate_cases script s) as [[Hself _] | (resp & Hr & Ht & _)].
  - exact Hself.
  - rewrite (H resp Hr) in Ht. discriminate Ht.
Qed.

(** X6. An update that [getUpdate] cannot read is not skipped: when the
    envelope is positive and the first element of its non-empty [result]
    has no [update_id] (or is not a dict), the exception of
    [response[0][update_id]] escapes, the update is not returned and the
    cursor stays where it was. *)
Theorem getUpdate_unreadable_update (d : list (string * pyval)) (ok update : pyval)
        (more : list pyval) (err : pyerr) (rest : list outcome) (s : state) :
  dict_get d "ok" = Some ok -> truthy ok = true ->
  dict_get d "result" = Some (PList (update :: more)) ->
  getitem_str update "update_id" = inr err ->
  getUpdate (Loads (PDict d) :: rest) s
  = (Raise err, rest, issue (poll_request (self s) (offset (self s))) s).
Proof.
  intros Hok Ht Hres Hid. unfold getUpdate.
  erewrite sendRequest_success by eassumption.
  cbn [bind truthy getitem_0]. now rewrite Hid.
Qed.

End PollsMore.

(** * The captured locals *)
Section Redaction.
Import Py TelegramBot Session.
Context {RT : Runtime}.

Lemma dict_get_pop_ne {A : Type} (k k' : string) (d : list (string * A)) :
  k <> k' -> dict_get (dict_pop k d) k' = dict_get d k'.
Proof.
  intros Hne. induction d as [|[k0 v] d IH]; [reflexivity|].
  cbn [dict_pop dict_get]. destruct (String.eqb_spec k0 k) as [->|Hk0].
  - destruct (String.eqb_spec k k'); [congruence | reflexivity].
  - cbn [dict_get]. now rewrite IH.
Qed.

Lemma dict_get_absent {A : Type} (k : string) (d : list (string * A)) :
  ~ In k (map fst d) -> dict_get d k = None.
Proof.
  induction d as [|[k0 v] d IH]; [reflexivity|]. cbn [map fst In dict_get]. intros H.
  destruct (String.eqb_spec k0 k) as [->|Hk0]; [exfalso; apply H; now left|].
  apply IH. intros Hin. apply H. now right.
Qed.

Lemma dict_pop_keys {A : Type} (k k' : string) (d : list (string * A)) :
  In k' (map fst (dict_pop k d)) -> In k' (map fst d).
Proof.
  induction d as [|[k0 v] d IH]; [intros []|]. cbn [dict_pop map fst In].
  destruct (String.eqb k0 k); [now right|]. cbn [map fst In]. tauto.
Qed.

Lemma dict_pop_NoDup {A : Type} (k : string) (d : list (string * A)) :
  List.NoDup (map fst d) -> List.NoDup (map fst (dict_pop k d)).
Proof.
  induction d as [|[k0 v] d IH]; [trivial|]. cbn [dict_pop map fst]. intros Hnd.
  inversion Hnd as [|x l Hnotin Hnd']; subst.
  destruct (String.eqb k0 k); [exact Hnd'|]. cbn [map fst]. constructor.
  - intros Hin. apply Hnotin. exact (dict_pop_keys _ _ _ Hin).
  - now apply IH.
Qed.

Lemma dict_get_pop_eq {A : Type} (k : string) (d : list (string * A)) :
  List.NoDup (map fst d) -> dict_get (dict_pop k d) k = None.
Proof.
  induction d as [|[k0 v] d IH]; [reflexivity|]. cbn [map fst dict_pop]. intros Hnd.
  inversion Hnd as [|x l Hnotin Hnd']; subst.
  destruct (String.eqb_spec k0 k) as [->|Hk0].
  - now apply dict_get_absent.
  - cbn [dict_get]. destruct (String.eqb_spec k0 k); [congruence|]. now apply IH.
Qed.

(** X8. What the four [pop] calls of [errorHandler] achieve, for the locals
    of any frame: the dict whose text ends the diagnostic has none of the
    keys [chatID], [text], [keyboard] and [url], and binds every other name
    to what the frame bound it to. The redaction goes by name only. *)
Theorem redaction_by_name (e : exn) (f_locals : list (string * local)) :
  List.NoDup (map fst f_locals) ->
  exists tb,
    error_msg (OtherError e f_locals)
    = exn_str e +:+ NL +:+ exn_frame e +:+ NL +:+ str_locals tb
    /\ (forall k, In k redacted -> dict_get tb k = None)
    /\ (forall k, ~ In k redacted -> dict_get tb k = dict_get f_locals k).
Proof.
  intros Hnd. eexists. split; [reflexivity|]. split.
  - intros k Hk. unfold redacted in Hk. cbn [In] in Hk.
    destruct Hk as [<-|[<-|[<-|[<-|[]]]]].
    + rewrite !dict_get_pop_ne by discriminate. now apply dict_get_pop_eq.
    + rewrite !dict_get_pop_ne by discriminate.
      apply dict_get_pop_eq. now apply dict_pop_NoDup.
    + rewrite !dict_get_pop_ne by discriminate.
      apply dict_get_pop_eq. now do 2 apply dict_pop_NoDup.
    + apply dict_get_pop_eq. now do 3 apply dict_pop_NoDup.
  - intros k Hk. unfold redacted in Hk. cbn [In] in Hk.
    rewrite !dict_get_pop_ne; [reflexivity | | | | ]; intros <-; apply Hk; auto 10.
Qed.
End Redaction.

Section RedactionExample.
Import Py TelegramBot Session Reference.

(** The locals of a frame of [sendMsg], had the exception been caught
    there: the chat id and the text go, [data] stays. *)
Lemma redaction_by_name_witness :
  let f_locals := [("self", LSelf bot_admin); ("chatID", LStr "42");
                   ("text", LStr "my secret");
                   ("data", LBytes "chat_id=42&text=my+secret")] in
  List.NoDup (map fst f_locals)
  /\ exists tb,
       error_msg (RT := runtime) (OtherError unreachable f_locals)
       = exn_str unreachable +:+ NL +:+ exn_frame unreachable +:+ NL
           +:+ str_locals (RT := runtime) tb
       /\ (forall k, In k redacted -> dict_get tb k = None)
       /\ (forall k, ~ In k redacted -> dict_get tb k = dict_get f_locals k).
Proof.
  cbv zeta.
  assert (H : List.NoDup (map fst [("self", LSelf bot_admin); ("chatID", LStr "42");
                                   ("text", LStr "my secret");
                                   ("data", LBytes "chat_id=42&text=my+secret")])).
  { cbn [map fst]. repeat constructor; cbn [In]; intros Hin;
      repeat (destruct Hin as [Hin|Hin]; [discriminate Hin|]); exact Hin. }
  split; [exact H|]. exact (redaction_by_name (RT := runtime) unreachable _ H).
Defined.
End RedactionExample.

(** * What is sent, and what is logged, over whole runs *)
Section Runs.
Import Py TelegramBot Session.
Context {RT : Runtime}.

(** Beyond its own request, [sendRequest] sends notifications to the
    administrator chat and nothing else. *)
Lemma sendRequest_within_notifies_only (room : nat) (script : list outcome)
      (method : string) (data : list (string * pyval)) (s : state) :
  exists further,
    sent (sendRequest_within room script method data s).2
    = sent s ++ Request (URL (self s) +:+ method) data :: further
    /\ Forall (fun r => exists msg, r = notification (self s) msg) further.
Proof.
  revert room method data s.
  induction script as [|o rest IH]; intros room method data s.
  - exists []. rewrite sendRequest_within_nil. split; [reflexivity | constructor].
  - rewrite sendRequest_within_sent. destruct (reported o && admin_set (self s)).
    + unfold sendMsgToAdmin_within. destruct (calls o <=? room)%nat.
      2:{ exists []. split; [reflexivity | constructor]. }
      * set (s1 := issue (Request (URL (self s) +:+ method) data) s).
        destruct (IH (room - calls o)%nat "sendMessage"
                     [("chat_id", PInt (ADMINCHATID (self s1)));
                      ("text", failure_msg (self s) method data o)] s1)
          as (further & -> & Hall).
        eexists. split.
        -- unfold s1. cbn [issue sent self]. rewrite <- app_assoc. reflexivity.
        -- constructor; [|exact Hall]. now eexists.
    + exists []. split; [reflexivity | constructor].
Qed.

Lemma sendRequest_notifies_only (script : list outcome) (method : string)
      (data : list (string * pyval)) (s : state) :
  exists further,
    sent (sendRequest script method data s).2
    = sent s ++ Request (URL (self s) +:+ method) data :: further
    /\ Forall (fun r => exists msg, r = notification (self s) msg) further.
Proof. apply sendRequest_within_notifies_only. Qed.

Lemma getUpdate_sent (script : list outcome) (s : state) :
  sent (getUpdate script s).2
  = sent (sendRequest script "getUpdates"
            [("offset", PInt (offset (self s))); ("limit", PInt 1);
             ("timeout", PInt (TIMEOUT (self s)))] s).2.
Proof.
  unfold getUpdate.
  destruct (sendRequest _ _ _ s) as [[[response|e|] rest] s1]; cbn [bind snd]; try reflexivity.
  destruct (truthy response); [|reflexivity].
  destruct (getitem_0 response) as [upd|]; [|reflexivity].
  destruct (getitem_str upd "update_id") as [uid|]; [|reflexivity].
  destruct (add_1 uid) as [n|]; reflexivity.
Qed.

Lemma api_request_URL (b b' : t) (r : request) :
  URL b = URL b' -> api_request b r -> api_request b' r.
Proof. unfold api_request. now intros ->. Qed.

Lemma perform_requests (c : op) (script : list outcome) (s : state) :
  exists new,
    sent (perform c script s).2 = sent s ++ new
    /\ Forall (api_request (self s)) new
    /\ URL (self (perform c script s).2) = URL (self s).
Proof.
  assert (Hnote : forall further,
             Forall (fun r => exists msg, r = notification (self s) msg) further ->
             Forall (api_request (self s)) further).
  { intros further. apply List.Forall_impl. intros r [msg ->]. right. now left. }
  destruct c; cbn [perform].
  - rewrite getUpdate_sent.
    destruct (sendRequest_notifies_only script "getUpdates"
                [("offset", PInt (offset (self s))); ("limit", PInt 1);
                 ("timeout", PInt (TIMEOUT (self s)))] s) as (further & -> & Hall).
    eexists. split; [reflexivity|]. split.
    + constructor; [now left | now apply Hnote].
    + apply getUpdate_config.
  - unfold sendMsg.
    destruct (sendRequest_notifies_only script "sendMessage"
                [("chat_id", chatID); ("text", text)] s) as (further & -> & Hall).
    eexists. split; [reflexivity|]. split.
    + constructor; [right; now left | now apply Hnote].
    + now rewrite sendRequest_self.
  - unfold sendMsgToAdmin, sendMsg.
    destruct (sendRequest_notifies_only script "sendMessage"
                [("chat_id", PInt (ADMINCHATID (self s))); ("text", msg)] s)
      as (further & -> & Hall).
    eexists. split; [reflexivity|]. split.
    + constructor; [right; now left | now apply Hnote].
    + now rewrite sendRequest_self.
  - unfold sendKeyboard.
    destruct (sendRequest_notifies_only script "sendMessage"
                [("chat_id", chatID); ("text", text); ("reply_markup", keyboard)] s)
      as (further & -> & Hall).
    eexists. split; [reflexivity|]. split.
    + constructor; [right; now left | now apply Hnote].
    + now rewrite sendRequest_self.
  - unfold deletMessage.
    destruct (sendRequest_notifies_only script "deleteMessage"
                [("chat_id", chatID); ("message_id", message_id)] s)
      as (further & -> & Hall).
    eexists. split; [reflexivity|]. split.
    + constructor; [right; now right | now apply Hnote].
    + now rewrite sendRequest_self.
Qed.

(** X9. Over any sequence of facade calls and any outcomes, every request
    the bot issues, notifications of failures included, goes to its own
    base URL followed by [getUpdates], [sendMessage] or [deleteMessage];
    nothing is ever removed from what was sent. *)
Theorem only_api_requests (ops : list op) (script : list outcome) (s : state) :
  exists new,
    sent (List.last (map after (perform_all ops script s)) s) = sent s ++ new
    /\ Forall (api_request (self s)) new.
Proof.
  revert script s. induction ops as [|c ops IH]; intros script s.
  - exists []. split; [cbn; now rewrite app_nil_r | constructor].
  - cbn [perform_all].
    destruct (perform_requests c script s) as (new1 & Hsent & Hall & HURL).
    destruct (perform c script s) as [[r rest] s1]. cbn [snd] in *.
    destruct (IH rest s1) as (new2 & Hsent2 & Hall2).
    exists (new1 ++ new2). cbn [map after]. rewrite last_cons, Hsent2, Hsent. split.
    + now rewrite app_assoc.
    + apply Forall_app. split; [exact Hall|].
      revert Hall2. apply List.Forall_impl. intros r0. now apply api_request_URL.
Qed.

(** ** The log of nested failures *)





End Runs.

(** * Further facts about the keyboards *)
Section KeyboardsMore.
Import Json Markup.

(** X11. The text of an inline keyboard, for every grid: the rows, each
    between brackets with its button objects written one after the other,
    are joined by single commas between the opening of the object and of
    its [inline_keyboard] array and their closing; for the empty grid the
    slice [result[:-1]] takes the opening bracket of the array away. *)
Theorem inline_text (G : grid) :
  InlineKeyboard.__str__ G
  = match G with
    | [] => "{" +:+ DQ +:+ "inline_keyboard" +:+ DQ +:+ ":" +:+ "]}"
    | _ :: _ => ("{" +:+ DQ +:+ "inline_keyboard" +:+ DQ +:+ ":[")
                  +:+ join "," (map inline_row G) +:+ "]}"
    end.
Proof. destruct G as [|row G]; [reflexivity|]. now apply inline_str_nonempty. Qed.

(** X12. The text of a reply keyboard, for every grid: the rows, each
    between brackets with its quoted labels written one after the other,
    are joined by single commas, and the two flags follow; for the empty
    grid the slice takes the opening bracket of the array away. *)
Theorem reply_text (G : grid) :
  ReplyKeyboard.__str__ G
  = match G with
    | [] => "{" +:+ DQ +:+ "keyboard" +:+ DQ +:+ ":"
    | _ :: _ => ("{" +:+ DQ +:+ "keyboard" +:+ DQ +:+ ":[") +:+ join "," (map reply_row G)
    end
    +:+ "]," +:+ DQ +:+ "resize_keyboard" +:+ DQ +:+ ":true,"
    +:+ DQ +:+ "one_time_keyboard" +:+ DQ +:+ ":true}".
Proof.
  destruct G as [|row G]; [reflexivity|].
  rewrite reply_str_nonempty by discriminate. now rewrite !append_assoc.
Qed.

(** Two readings of the same text agree, whatever the fuel of each. *)
Lemma parse_value_agree (k k' : nat) (s : string) (v v' : json) (r r' : string) :
  parse_value k s = Some (v, r) -> parse_value k' s = Some (v', r') -> v = v' /\ r = r'.
Proof.
  intros H H'.
  destruct (parse_value_settled k s v r H) as [_ Hk].
  destruct (parse_value_settled k' s v' r' H') as [_ Hk'].
  specialize (Hk (S (String.length s)) (Nat.lt_succ_diag_r _)).
  specialize (Hk' (S (String.length s)) (Nat.lt_succ_diag_r _)).
  rewrite Hk in Hk'. now injection Hk' as <- <-.
Qed.

Section Reject.
Variable pv : string -> option (json * string).
Context {A : Type} (text : A -> string).

Lemma join_head (x : A) (l : list A) (tail : string) :
  exists t, join "," (map text (x :: l)) +:+ tail = text x +:+ t.
Proof.
  destruct l as [|y l]; [now exists tail|].
  change (join "," (map text (x :: y :: l)))
    with (text x +:+ "," +:+ join "," (map text (y :: l))).
  rewrite append_assoc. now eexists.
Qed.

(** The elements of an array are not read when one of them is not, the
    ones before it being read to their end. *)
Lemma parse_elements_reject (pre : list A) (bad : A) (post : list A) (tail : string)
      (n : nat) :
  (forall x t v r, In x pre -> pv (text x +:+ t) = Some (v, r) -> r = t) ->
  (forall t, pv (text bad +:+ t) = None) ->
  parse_elements pv n (join "," (map text (pre ++ bad :: post)) +:+ tail) = None.
Proof.
  intros Hpre Hbad. revert n. induction pre as [|x pre IH]; intros n.
  - cbn [app]. destruct (join_head bad post tail) as [t ->].
    destruct n as [|n]; [reflexivity|]. cbn [parse_elements]. now rewrite Hbad.
  - destruct n as [|n]; [reflexivity|].
    assert (Hshape : join "," (map text ((x :: pre) ++ bad :: post)) +:+ tail
                     = text x +:+ String "," (join "," (map text (pre ++ bad :: post)) +:+ tail)).
    { cbn [app]. destruct (pre ++ bad :: post) as [|y l] eqn:E; [now destruct pre|].
      change (join "," (map text (x :: y :: l)))
        with (text x +:+ "," +:+ join "," (map text (y :: l))).
      now rewrite !append_assoc. }
    rewrite Hshape. cbn [parse_elements].
    destruct (pv (text x +:+ _)) as [[v r]|] eqn:E; [|reflexivity].
    apply Hpre in E; [|now left]. subst r.
    change (skip_ws (String "," (join "," (map text (pre ++ bad :: post)) +:+ tail)))
      with (String "," (join "," (map text (pre ++ bad :: post)) +:+ tail)).
    change (code "," =? 44)%N with true. cbv iota.
    rewrite IH; [reflexivity|]. intros y t v' r' Hy. apply Hpre. now right.
Qed.
End Reject.

Lemma first_wide_row (G : grid) :
  single_buttons G = false ->
  exists pre bad post,
    G = pre ++ bad :: post /\ single_buttons pre = true /\ (2 <= length bad)%nat.
Proof.
  unfold single_buttons. induction G as [|row G IH]; [discriminate|].
  cbn [forallb]. destruct (length row <=? 1)%nat eqn:E.
  - cbn [andb]. intros H. destruct (IH H) as (pre & bad & post & -> & Hpre & Hbad).
    exists (row :: pre), bad, post. cbn [forallb]. now rewrite E, Hpre.
  - intros _. exists [], row, G. apply Nat.leb_gt in E. repeat split. lia.
Qed.

Lemma plain_grid_app (G1 G2 : grid) :
  plain_grid (G1 ++ G2) = true -> plain_grid G1 = true /\ plain_grid G2 = true.
Proof. unfold plain_grid. rewrite forallb_app. apply andb_true_iff. Qed.

Lemma inline_row_rest (k : nat) (row : list string) (tail r : string) (v : json) :
  (length row <= 1)%nat -> forallb plain_label row = true ->
  parse_value k (inline_row row +:+ tail) = Some (v, r) -> r = tail.
Proof.
  intros Hlen Hplain H.
  now destruct (parse_value_agree _ _ _ _ _ _ _ H (parse_inline_row 0 row tail Hlen Hplain)).
Qed.

Lemma reply_row_rest (k : nat) (row : list string) (tail r : string) (v : json) :
  (length row <= 1)%nat -> forallb plain_label row = true ->
  parse_value k (reply_row row +:+ tail) = Some (v, r) -> r = tail.
Proof.
  intros Hlen Hplain H.
  now destruct (parse_value_agree _ _ _ _ _ _ _ H (parse_reply_row 0 row tail Hlen Hplain)).
Qed.

(** A row of two buttons or more is not read: after the first button the
    reader meets the second where a comma or the bracket should be. *)
Lemma inline_row_reject (k : nat) (b1 b2 : string) (more : list string) (tail : string) :
  plain_label b1 = true ->
  parse_value k (inline_row (b1 :: b2 :: more) +:+ tail) = None.
Proof.
  intros Hb1. destruct k as [|k]; [reflexivity|].
  unfold inline_row. cbn [map concat_str]. norm_str.
  rewrite (button_text_shape b1), parse_value_array by reflexivity.
  rewrite <- button_text_shape.
  destruct k as [|k]; [reflexivity|]. cbn [parse_elements].
  destruct (parse_value (S k) (InlineKeyboard.button_text b1 +:+ _)) as [[v r]|] eqn:E;
    [|reflexivity].
  destruct (parse_value_agree _ _ _ _ _ _ _ E (parse_inline_button 0 b1 _ Hb1)) as [_ ->].
  now rewrite (button_text_shape b2).
Qed.

Lemma reply_row_reject (k : nat) (b1 b2 : string) (more : list string) (tail : string) :
  plain_label b1 = true ->
  parse_value k (reply_row (b1 :: b2 :: more) +:+ tail) = None.
Proof.
  intros Hb1. destruct k as [|k]; [reflexivity|].
  unfold reply_row, reply_button, DQ. cbn [map concat_str]. norm_str.
  rewrite parse_value_array by reflexivity.
  destruct k as [|k]; [reflexivity|]. cbn [parse_elements].
  now rewrite (parse_value_string k b1 _ Hb1).
Qed.

Lemma rows_reject (text : list string -> string) (G : grid) (k n : nat) (tail : string) :
  (forall k row t v r, (length row <= 1)%nat -> forallb plain_label row = true ->
      parse_value k (text row +:+ t) = Some (v, r) -> r = t) ->
  (forall k b1 b2 more t, plain_label b1 = true ->
      parse_value k (text (b1 :: b2 :: more) +:+ t) = None) ->
  plain_grid G = true -> single_buttons G = false ->
  parse_elements (parse_value k) n (join "," (map text G) +:+ tail) = None.
Proof.
  intros Hrest Hreject Hplain Hwide.
  destruct (first_wide_row G Hwide) as (pre & bad & post & -> & Hpre & Hbad).
  apply plain_grid_app in Hplain as [Hplain_pre Hplain_bad].
  apply parse_elements_reject.
  - intros row t v r Hin. apply Hrest.
    + exact (single_buttons_In pre row Hpre Hin).
    + exact (plain_grid_In pre row Hplain_pre Hin).
  - intros t. destruct bad as [|b1 [|b2 more]]; try (cbn in Hbad; lia).
    apply Hreject. unfold plain_grid in Hplain_bad. cbn [forallb] in Hplain_bad.
    now repeat (apply andb_true_iff in Hplain_bad as [Hplain_bad _]).
Qed.

(** X13. An inline keyboard with a row of two buttons or more never gives
    JSON, whatever its other rows are: the inner loop of [__str__] writes
    the button objects of a row one after the other with no comma between
    them, so that after the first object of the row the brace of the
    second stands where a comma or the closing bracket is due. (The labels
    are taken without characters that need escaping.) The grid of the
    docstring of the class is such a grid. *)
Theorem inline_wide_row_invalid (G : grid) :
  plain_grid G = true -> single_buttons G = false ->
  ~ valid_json (InlineKeyboard.__str__ G).
Proof.
  intros Hplain Hwide (v & fuel & rest & H & _).
  assert (Hne : G <> []) by (intros ->; discriminate Hwide).
  rewrite inline_str_nonempty in H by exact Hne.
  replace (("{" +:+ DQ +:+ "inline_keyboard" +:+ DQ +:+ ":[")
             +:+ join "," (map inline_row G) +:+ "]}")
    with (String "{" (String dquote ("inline_keyboard" +:+ String dquote (String ":"
            (String "[" (join "," (map inline_row G) +:+ String "]" (String "}" EmptyString)))))))
    in H by (unfold DQ; norm_str; reflexivity).
  destruct fuel as [|f]; [discriminate H|]. rewrite parse_value_object in H.
  destruct f as [|f]; [discriminate H|].
  rewrite parse_members_key in H by reflexivity.
  destruct (join_rows_head inline_row G (String "]" (String "}" EmptyString))
              inline_row_head Hne) as [r Hr].
  rewrite Hr, parse_value_array in H by reflexivity. rewrite <- Hr in H.
  rewrite (rows_reject inline_row) in H; try assumption; [discriminate H| |].
  - intros k row t v' r'. apply inline_row_rest.
  - intros k b1 b2 more t. apply inline_row_reject.
Qed.

(** X14. The same for a reply keyboard: with a row of two labels or more
    the text is never JSON. *)
Theorem reply_wide_row_invalid (G : grid) :
  plain_grid G = true -> single_buttons G = false ->
  ~ valid_json (ReplyKeyboard.__str__ G).
Proof.
  intros Hplain Hwide (v & fuel & rest & H & _).
  assert (Hne : G <> []) by (intros ->; discriminate Hwide).
  rewrite reply_str_nonempty in H by exact Hne.
  set (flags := DQ +:+ "resize_keyboard" +:+ DQ +:+ ":true,"
                   +:+ DQ +:+ "one_time_keyboard" +:+ DQ +:+ ":true}") in H.
  replace (("{" +:+ DQ +:+ "keyboard" +:+ DQ +:+ ":[")
             +:+ join "," (map reply_row G) +:+ "]," +:+ flags)
    with (String "{" (String dquote ("keyboard" +:+ String dquote (String ":"
            (String "[" (join "," (map reply_row G) +:+ String "]" (String "," flags)))))))
    in H by (unfold DQ; norm_str; reflexivity).
  destruct fuel as [|f]; [discriminate H|]. rewrite parse_value_object in H.
  destruct f as [|f]; [discriminate H|].
  rewrite parse_members_key in H by reflexivity.
  destruct (join_rows_head reply_row G (String "]" (String "," flags))
              reply_row_head Hne) as [r Hr].
  rewrite Hr, parse_value_array in H by reflexivity. rewrite <- Hr in H.
  rewrite (rows_reject reply_row) in H; try assumption; [discriminate H| |].
  - intros k row t v' r'. apply reply_row_rest.
  - intros k b1 b2 more t. apply reply_row_reject.
Qed.
End KeyboardsMore.

Section KeyboardsInjective.
Import Json Markup.

(** The text of a keyboard is read to its end and no further, whatever
    follows it. *)
Lemma inline_text_parses (G : grid) (f : nat) (tail : string) :
  G <> [] -> single_buttons G = true -> plain_grid G = true ->
  (length G <= S (S (S (S f))))%nat ->
  parse_value (S (S (S (S (S (S f)))))) (InlineKeyboard.__str__ G +:+ tail)
  = Some (inline_markup G, tail).
Proof.
  intros Hne Hsingle Hplain HG.
  rewrite inline_str_nonempty by exact Hne.
  set (body := join "," (map inline_row G)).
  destruct (join_rows_head inline_row G (String "]" (String "}" tail))
              inline_row_head Hne) as [r Hr].
  fold body in Hr.
  assert (Hrows : parse_value (S (S (S (S (S f)))))
                    (String "[" (body +:+ String "]" (String "}" tail)))
                  = Some (JArr (map (fun row => JArr (map inline_button row)) G),
                          String "}" tail)).
  { rewrite Hr, parse_value_array by reflexivity. rewrite <- Hr. unfold body.
    rewrite (parse_elements_join _ inline_row (fun row => JArr (map inline_button row)));
      [reflexivity | | exact Hne | exact HG].
    intros row t Hin. apply parse_inline_row.
    - exact (single_buttons_In G row Hsingle Hin).
    - exact (plain_grid_In G row Hplain Hin). }
  replace ((("{" +:+ DQ +:+ "inline_keyboard" +:+ DQ +:+ ":[") +:+ body +:+ "]}") +:+ tail)
    with (String "{" (String dquote ("inline_keyboard" +:+ String dquote (String ":"
            (String "[" (body +:+ String "]" (String "}" tail)))))))
    by (unfold DQ; norm_str; reflexivity).
  rewrite parse_value_object.
  erewrite parse_members_last; [ | reflexivity | exact Hrows].
  reflexivity.
Qed.

Lemma reply_text_parses (G : grid) (f : nat) (tail : string) :
  G <> [] -> single_buttons G = true -> plain_grid G = true ->
  (length G <= S (S (S (S f))))%nat ->
  parse_value (S (S (S (S (S (S f)))))) (ReplyKeyboard.__str__ G +:+ tail)
  = Some (reply_markup G, tail).
Proof.
  intros Hne Hsingle Hplain HG.
  rewrite reply_str_nonempty by exact Hne.
  set (body := join "," (map reply_row G)).
  set (flags := DQ +:+ "resize_keyboard" +:+ DQ +:+ ":true,"
                   +:+ DQ +:+ "one_time_keyboard" +:+ DQ +:+ ":true}").
  destruct (join_rows_head reply_row G (String "]" (String "," (flags +:+ tail)))
              reply_row_head Hne) as [r Hr].
  fold body in Hr.
  assert (Hrows : parse_value (S (S (S (S (S f)))))
                    (String "[" (body +:+ String "]" (String "," (flags +:+ tail))))
                  = Some (JArr (map (fun row => JArr (map JStr row)) G),
                          String "," (flags +:+ tail))).
  { rewrite Hr, parse_value_array by reflexivity. rewrite <- Hr. unfold body.
    rewrite (parse_elements_join _ reply_row (fun row => JArr (map JStr row)));
      [reflexivity | | exact Hne | exact HG].
    intros row t Hin. apply parse_reply_row.
    - exact (single_buttons_In G row Hsingle Hin).
    - exact (plain_grid_In G row Hplain Hin). }
  replace ((("{" +:+ DQ +:+ "keyboard" +:+ DQ +:+ ":[") +:+ body +:+ "]," +:+ flags) +:+ tail)
    with (String "{" (String dquote ("keyboard" +:+ String dquote (String ":"
            (String "[" (body +:+ String "]" (String "," (flags +:+ tail))))))))
    by (unfold DQ; norm_str; reflexivity).
  rewrite parse_value_object.
  erewrite parse_members_more; [ | reflexivity | exact Hrows].
  unfold flags, DQ. norm_str. reflexivity.
Qed.

Lemma map_injective {A B : Type} (f : A -> B) (l1 l2 : list A) :
  (forall x y, f x = f y -> x = y) -> map f l1 = map f l2 -> l1 = l2.
Proof.
  intros Hf. revert l2. induction l1 as [|x l1 IH]; intros [|y l2] H; try discriminate H.
  - reflexivity.
  - cbn [map] in H. injection H as Hxy H. f_equal; [now apply Hf | now apply IH].
Qed.

Lemma inline_markup_injective (G1 G2 : grid) :
  inline_markup G1 = inline_markup G2 -> G1 = G2.
Proof.
  unfold inline_markup. intros [= H]. revert H. apply map_injective.
  intros r1 r2 [= H]. revert H. apply map_injective.
  unfold inline_button. now intros b1 b2 [= H].
Qed.

Lemma reply_markup_injective (G1 G2 : grid) :
  reply_markup G1 = reply_markup G2 -> G1 = G2.
Proof.
  unfold reply_markup. intros [= H]. revert H. apply map_injective.
  intros r1 r2 [= H]. revert H. apply map_injective. now intros b1 b2 [= H].
Qed.

(** X15. No information is lost by [InlineKeyboard.__str__] on the grids it
    serializes to JSON: two non-empty grids with at most one button per row
    and labels that need no escaping have the same text only if they are
    the same grid. *)
Theorem inline_text_injective (G1 G2 : grid) :
  G1 <> [] -> single_buttons G1 = true -> plain_grid G1 = true ->
  G2 <> [] -> single_buttons G2 = true -> plain_grid G2 = true ->
  InlineKeyboard.__str__ G1 = InlineKeyboard.__str__ G2 -> G1 = G2.
Proof.
  intros Hne1 Hs1 Hp1 Hne2 Hs2 Hp2 Heq.
  pose proof (inline_text_parses G1 (length G1 + length G2) EmptyString Hne1 Hs1 Hp1) as H1.
  pose proof (inline_text_parses G2 (length G1 + length G2) EmptyString Hne2 Hs2 Hp2) as H2.
  specialize (H1 ltac:(lia)). specialize (H2 ltac:(lia)).
  rewrite Heq, H2 in H1. apply inline_markup_injective. congruence.
Qed.

(** X16. The same for [ReplyKeyboard.__str__]. *)
Theorem reply_text_injective (G1 G2 : grid) :
  G1 <> [] -> single_buttons G1 = true -> plain_grid G1 = true ->
  G2 <> [] -> single_buttons G2 = true -> plain_grid G2 = true ->
  ReplyKeyboard.__str__ G1 = ReplyKeyboard.__str__ G2 -> G1 = G2.
Proof.
  intros Hne1 Hs1 Hp1 Hne2 Hs2 Hp2 Heq.
  pose proof (reply_text_parses G1 (length G1 + length G2) EmptyString Hne1 Hs1 Hp1) as H1.
  pose proof (reply_text_parses G2 (length G1 + length G2) EmptyString Hne2 Hs2 Hp2) as H2.
  specialize (H1 ltac:(lia)). specialize (H2 ltac:(lia)).
  rewrite Heq, H2 in H1. apply reply_markup_injective. congruence.
Qed.
End KeyboardsInjective.

(** * Further worked scenarios *)
Section MoreScenarios.
Import Py TelegramBot Session Reference Json Markup.

Lemma failure_without_reporters_witness :
  admin_set (self (fresh bot_plain)) = false
  /\ log_set (self (fresh bot_plain)) = false
  /\ reported (RT := runtime) (Raises unreachable) = true
  /\ sendRequest (RT := runtime) [Raises unreachable] "sendMessage" hello (fresh bot_plain)
     = (Ret PNone, [],
        issue (Request (URL (self (fresh bot_plain)) +:+ "sendMessage") hello)
              (fresh bot_plain)).
Proof.
  split; [reflexivity|]. split; [reflexivity|]. split; [reflexivity|].
  exact (failure_without_reporters (RT := runtime) (Raises unreachable) [] "sendMessage"
           hello (fresh bot_plain) eq_refl eq_refl eq_refl).
Defined.

Lemma single_request_without_admin_witness :
  admin_set (self (fresh bot_log)) = false
  /\ (sendRequest (RT := runtime) [Loads (PList []); Loads chat_not_found]
        "sendMessage" hello (fresh bot_log)).1.2 = [Loads chat_not_found]
  /\ sent (sendRequest (RT := runtime) [Loads (PList []); Loads chat_not_found]
             "sendMessage" hello (fresh bot_log)).2
     = sent (fresh bot_log)
         ++ [Request (URL (self (fresh bot_log)) +:+ "sendMessage") hello].
Proof.
  split; [reflexivity|].
  exact (single_request_without_admin (RT := runtime) (Loads (PList []))
           [Loads chat_not_found] "sendMessage" hello (fresh bot_log) eq_refl).
Defined.

Lemma returned_value_is_result_witness :
  let s' := issue (Request (URL (self (fresh bot_both)) +:+ "sendMessage") hello)
                  (fresh bot_both) in
  sendRequest (RT := runtime) [Loads (ok_envelope (PInt 7))] "sendMessage" hello
              (fresh bot_both) = (Ret (PInt 7), [], s')
  /\ PInt 7 <> PNone
  /\ exists d ok,
       [Loads (ok_envelope (PInt 7))] = [Loads (PDict d)]
       /\ dict_get d "ok" = Some ok /\ truthy ok = true
       /\ dict_get d "result" = Some (PInt 7)
       /\ s' = issue (Request (URL (self (fresh bot_both)) +:+ "sendMessage") hello)
                     (fresh bot_both).
Proof.
  cbv zeta. split; [reflexivity|]. split; [discriminate|].
  refine (returned_value_is_result (RT := runtime) [Loads (ok_envelope (PInt 7))] []
           "sendMessage" hello (fresh bot_both) _ (PInt 7) eq_refl _).
  discriminate.
Defined.

Lemma getUpdate_keeps_cursor_witness :
  (forall response,
      (getUpdate (RT := runtime) [Raises unreachable] (fresh bot_plain)).1.1 = Ret response ->
      truthy response = false)
  /\ self (getUpdate (RT := runtime) [Raises unreachable] (fresh bot_plain)).2
     = self (fresh bot_plain).
Proof.
  assert (H : forall response,
             (getUpdate (RT := runtime) [Raises unreachable] (fresh bot_plain)).1.1
             = Ret response -> truthy response = false).
  { intros response [= <-]. reflexivity. }
  split; [exact H|].
  exact (getUpdate_keeps_cursor (RT := runtime) [Raises unreachable] (fresh bot_plain) H).
Defined.

Lemma getUpdate_unreadable_update_witness :
  let d := [("ok", PBool true); ("result", PList [PDict [("message", PStr "hi")]])] in
  dict_get d "ok" = Some (PBool true) /\ truthy (PBool true) = true
  /\ dict_get d "result" = Some (PList [PDict [("message", PStr "hi")]])
  /\ getitem_str (PDict [("message", PStr "hi")]) "update_id" = inr KeyError
  /\ getUpdate (RT := runtime) [Loads (PDict d)] (fresh bot_plain)
     = (Raise KeyError, [],
        issue (poll_request (self (fresh bot_plain)) (offset (self (fresh bot_plain))))
              (fresh bot_plain)).
Proof.
  cbv zeta. split; [reflexivity|]. split; [reflexivity|]. split; [reflexivity|].
  split; [reflexivity|].
  exact (getUpdate_unreadable_update (RT := runtime)
           [("ok", PBool true); ("result", PList [PDict [("message", PStr "hi")]])]
           (PBool true) (PDict [("message", PStr "hi")]) [] KeyError [] (fresh bot_plain)
           eq_refl eq_refl eq_refl eq_refl).
Defined.



(** The grid of the docstring of [InlineKeyboard]: the text holds the end
    of the first button object right before the start of the second, and
    is not JSON. *)
Lemma inline_wide_row_invalid_witness :
  plain_grid docstring_grid = true /\ single_buttons docstring_grid = false
  /\ contains (InlineKeyboard.__str__ docstring_grid) "}{" = true
  /\ ~ valid_json (InlineKeyboard.__str__ docstring_grid).
Proof.
  split; [reflexivity|]. split; [reflexivity|]. split; [vm_compute; reflexivity|].
  exact (inline_wide_row_invalid docstring_grid eq_refl eq_refl).
Defined.

Lemma reply_wide_row_invalid_witness :
  plain_grid docstring_grid = true /\ single_buttons docstring_grid = false
  /\ ~ valid_json (ReplyKeyboard.__str__ docstring_grid).
Proof.
  split; [reflexivity|]. split; [reflexivity|].
  exact (reply_wide_row_invalid docstring_grid eq_refl eq_refl).
Defined.

Lemma inline_text_injective_witness :
  let G := [["Yes"]; ["No"]] in
  G <> [] /\ single_buttons G = true /\ plain_grid G = true
  /\ InlineKeyboard.__str__ G = InlineKeyboard.__str__ G /\ G = G.
Proof.
  cbv zeta. split; [discriminate|]. split; [reflexivity|]. split; [reflexivity|].
  split; [reflexivity|].
  refine (inline_text_injective [["Yes"]; ["No"]] [["Yes"]; ["No"]]
            _ eq_refl eq_refl _ eq_refl eq_refl eq_refl); discriminate.
Defined.

Lemma reply_text_injective_witness :
  let G := [["Yes"]; ["No"]] in
  G <> [] /\ single_buttons G = true /\ plain_grid G = true
  /\ ReplyKeyboard.__str__ G = ReplyKeyboard.__str__ G /\ G = G.
Proof.
  cbv zeta. split; [discriminate|]. split; [reflexivity|]. split; [reflexivity|].
  split; [reflexivity|].
  refine (reply_text_injective [["Yes"]; ["No"]] [["Yes"]; ["No"]]
            _ eq_refl eq_refl _ eq_refl eq_refl eq_refl); discriminate.
Defined.


(** The network is down for good: 248 requests are made before
    [RecursionError] escapes. *)
Lemma recursion_error_escapes_witness :
  let failures := repeat (Raises unreachable) 247 in
  let f := Raises unreachable in
  let s := fresh bot_admin in
  admin_set (self s) = true
  /\ Forall (fun f => reported (RT := runtime) f = true) failures
  /\ reported (RT := runtime) f = true
  /\ (stack_use failures <= 4 + stack)%nat
  /\ (4 + stack < stack_use failures + calls f)%nat
  /\ exists s',
       sendRequest (RT := runtime) (failures ++ [f]) "sendMessage" hello s
       = (Raise RecursionError, [], s')
       /\ sent s' = sent s ++ Request (URL (self s) +:+ "sendMessage") hello
                            :: notifications (RT := runtime) (self s) "sendMessage" hello
                                 failures
       /\ files s' = files s.
Proof.
  cbv zeta.
  assert (H : Forall (fun f => reported (RT := runtime) f = true)
                (repeat (Raises unreachable) 247)).
  { apply List.Forall_forall. intros f Hin. apply repeat_spec in Hin. subst f. reflexivity. }
  assert (Hfit : (stack_use (repeat (Raises unreachable) 247) <= 4 + stack)%nat).
  { apply Nat.leb_le. vm_compute. reflexivity. }
  assert (Hover : (4 + stack < stack_use (repeat (Raises unreachable) 247)
                               + calls (Raises unreachable))%nat).
  { apply Nat.ltb_lt. vm_compute. reflexivity. }
  split; [reflexivity|]. split; [exact H|]. split; [reflexivity|].
  split; [exact Hfit|]. split; [exact Hover|].
  exact (recursion_error_escapes (RT := runtime) (repeat (Raises unreachable) 247)
           (Raises unreachable) [] "sendMessage" hello (fresh bot_admin)
           eq_refl H eq_refl Hfit Hover).
Defined.

Lemma negative_envelope_raises_witness :
  let s := fresh bot_log in
  getitem_str chat_not_found "ok" = inl (PBool false) /\ truthy (PBool false) = false
  /\ admin_set (self s) = false
  /\ LOGFILEPATH (self s) = Some "bot.log" /\ Json.is_empty "bot.log" = false
  /\ ("bot.log" ∉ denied s)
  /\ exists s',
       sendRequest (RT := runtime) [Loads chat_not_found] "sendMessage" hello s
       = (Raise TypeError, [], s')
       /\ default EmptyString (files s' !! "bot.log")
          = default EmptyString (files s !! "bot.log")
       /\ (forall other, other <> "bot.log" -> files s' !! other = files s !! other).
Proof.
  cbv zeta.
  assert (Hden : "bot.log" ∉ denied (fresh bot_log)) by apply not_elem_of_empty.
  split; [reflexivity|]. split; [reflexivity|]. split; [reflexivity|].
  split; [reflexivity|]. split; [reflexivity|]. split; [exact Hden|].
  exact (negative_envelope_raises (RT := runtime) chat_not_found (PBool false) []
           "sendMessage" hello "bot.log" (fresh bot_log)
           eq_refl eq_refl eq_refl eq_refl eq_refl Hden).
Defined.

(** An HTTP 502 whose body is in Latin-1. *)
Lemma undecodable_body_escapes_witness :
  @TelegramBot.decode runtime latin1_body = None
  /\ sendRequest (RT := runtime)
       [RaisesHTTPError "https://api.telegram.org/" latin1_body] "sendMessage" hello
       (fresh bot_both)
     = (Raise UnicodeDecodeError, [],
        issue (Request (URL (self (fresh bot_both)) +:+ "sendMessage") hello)
              (fresh bot_both)).
Proof.
  split; [reflexivity|].
  exact (undecodable_body_escapes (RT := runtime) "https://api.telegram.org/" latin1_body
           [] "sendMessage" hello (fresh bot_both) eq_refl).
Defined.

(** The network is down and the log file cannot be opened. *)
Lemma refused_log_escapes_witness :
  let s := read_only bot_log in
  reported (RT := runtime) (Raises unreachable) = true
  /\ admin_set (self s) = false
  /\ LOGFILEPATH (self s) = Some "bot.log" /\ Json.is_empty "bot.log" = false
  /\ ("bot.log" ∈ denied s)
  /\ sendRequest (RT := runtime) [Raises unreachable] "sendMessage" hello s
     = (Raise OSError, [],
        issue (Request (URL (self s) +:+ "sendMessage") hello) s).
Proof.
  cbv zeta.
  assert (Hden : "bot.log" ∈ denied (read_only bot_log)).
  { cbn [read_only denied]. now apply elem_of_singleton_2. }
  split; [reflexivity|]. split; [reflexivity|]. split; [reflexivity|].
  split; [reflexivity|]. split; [exact Hden|].
  exact (refused_log_escapes (RT := runtime) (Raises unreachable) [] "sendMessage" hello
           "bot.log" (read_only bot_log) eq_refl eq_refl eq_refl eq_refl Hden).
Defined.
End MoreScenarios.

(** * What no call changes *)

(** A relation between the state before and the state after that holds
    across the three things the methods do to the state, issuing a request,
    writing to the log and moving the cursor, holds across every call and
    every sequence of calls. *)
Section Preserved.
Import Py TelegramBot Session.
Context {RT : Runtime}.
Variable R : state -> state -> Prop.
Hypothesis R_refl : forall s, R s s.
Hypothesis R_trans : forall s1 s2 s3, R s1 s2 -> R s2 s3 -> R s1 s3.
Hypothesis R_issue : forall r s, R s (issue r s).
Hypothesis R_writeLog : forall msg s, R s (writeLog msg s).2.
Hypothesis R_offset : forall n s, R s (set_offset n s).

Lemma log_step_preserved (m : run pyval) (msg : pyval) (s : state) :
  R s m.2 ->
  R s (bind m (fun _ rest s0 =>
                 if log_set (self s0)
                 then let '(r, s1) := writeLog msg s0 in (r, rest, s1)
                 else (Ret tt, rest, s0))).2.
Proof.
  destruct m as [[[a|e|] rest'] s']; cbn [bind snd]; intros H1; try exact H1.
  destruct (log_set (self s')); [|exact H1].
  pose proof (R_writeLog msg s') as Hw. destruct (writeLog msg s') as [r s''].
  cbn [snd] in *. now apply R_trans with s'.
Qed.

Lemma report_preserved (send : pyval -> state -> run pyval) (rest : list outcome)
      (msg : pyval) (s : state) :
  (forall m s0, R s0 (send m s0).2) -> R s (report send rest msg s).2.
Proof.
  intros Hsend. unfold report. apply log_step_preserved.
  destruct (admin_set (self s)); [apply Hsend | apply R_refl].
Qed.

Lemma bind_none_preserved (m : run unit) (s : state) :
  R s m.2 -> R s (bind m (fun _ rest s0 => (Ret PNone, rest, s0))).2.
Proof. destruct m as [[[a|e|] rest] s']; intros H; exact H. Qed.

Lemma sendRequest_within_preserved (room : nat) (script : list outcome)
      (method : string) (data : list (string * pyval)) (s : state) :
  R s (sendRequest_within room script method data s).2.
Proof.
  revert room method data s.
  induction script as [|o rest IH]; intros room method data s.
  - rewrite sendRequest_within_nil. apply R_issue.
  - assert (Hsend : forall m s0, R s0 (sendMsgToAdmin_within room o rest m s0).2).
    { intros m s0. unfold sendMsgToAdmin_within.
      destruct (calls o <=? room)%nat; [apply IH | apply R_refl]. }
    rewrite sendRequest_within_cons. cbv zeta.
    set (s1 := issue _ s). apply R_trans with s1; [apply R_issue|].
    destruct o as [e|filename body|response].
    + apply bind_none_preserved. now apply report_preserved.
    + apply bind_none_preserved. unfold errorHandler_within, errorHandler_with.
      destruct (decode body); [now apply report_preserved | apply R_refl].
    + destruct (getitem_str response "ok") as [ok|]; [|apply R_refl].
      destruct (negb (truthy ok)).
      * apply bind_none_preserved. now apply report_preserved.
      * destruct (getitem_str response "result"); apply R_refl.
Qed.

Lemma sendRequest_preserved (script : list outcome) (method : string)
      (data : list (string * pyval)) (s : state) :
  R s (sendRequest script method data s).2.
Proof. apply sendRequest_within_preserved. Qed.

Lemma getUpdate_preserved (script : list outcome) (s : state) :
  R s (getUpdate script s).2.
Proof.
  unfold getUpdate.
  pose proof (sendRequest_preserved script "getUpdates"
                [("offset", PInt (offset (self s))); ("limit", PInt 1);
                 ("timeout", PInt (TIMEOUT (self s)))] s) as H.
  destruct (sendRequest script "getUpdates" _ s) as [[[response|e|] rest] s1];
    cbn [bind snd] in *; try exact H.
  destruct (truthy response); [|exact H].
  destruct (getitem_0 response) as [update|]; [|exact H].
  destruct (getitem_str update "update_id") as [update_id|]; [|exact H].
  destruct (add_1 update_id) as [n|]; [|exact H].
  cbn [snd]. apply R_trans with s1; [exact H | apply R_offset].
Qed.

Lemma perform_preserved (c : op) (script : list outcome) (s : state) :
  R s (perform c script s).2.
Proof.
  destruct c; cbn [perform]; [apply getUpdate_preserved | | | | ];
    apply sendRequest_preserved.
Qed.

Lemma perform_all_preserved (ops : list op) (script : list outcome) (s : state) :
  Forall (fun e => R s (after e)) (perform_all ops script s).
Proof.
  revert script s. induction ops as [|c ops IH]; intros script s; [constructor|].
  cbn [perform_all]. pose proof (perform_preserved c script s) as H.
  destruct (perform c script s) as [[r rest] s1]. cbn [snd] in H.
  constructor; [exact H|].
  eapply List.Forall_impl; [|apply IH]. intros e He. now apply R_trans with s1.
Qed.
End Preserved.

Section Unchanged.
Import Py TelegramBot Session.
Context {RT : Runtime}.

(** X20. The configuration is fixed by the constructor: over any sequence
    of facade calls and any outcomes, after every call the base URL, the
    timeout, the administrator chat and the log path of the object are
    those of the start. Only the cursor is ever assigned. *)
Theorem configuration_is_constant (ops : list op) (script : list outcome) (s : state) :
  Forall (fun e => URL (self (after e)) = URL (self s)
                   /\ TIMEOUT (self (after e)) = TIMEOUT (self s)
                   /\ ADMINCHATID (self (after e)) = ADMINCHATID (self s)
                   /\ LOGFILEPATH (self (after e)) = LOGFILEPATH (self s))
         (perform_all ops script s).
Proof.
  apply (perform_all_preserved
           (fun s s' => URL (self s') = URL (self s)
                        /\ TIMEOUT (self s') = TIMEOUT (self s)
                        /\ ADMINCHATID (self s') = ADMINCHATID (self s)
                        /\ LOGFILEPATH (self s') = LOGFILEPATH (self s))).
  - auto.
  - intros s1 s2 s3 (H1 & H2 & H3 & H4) (H5 & H6 & H7 & H8). repeat split; congruence.
  - intros r s0. cbn [issue self]. auto.
  - intros msg s0. rewrite writeLog_self. auto.
  - intros n s0. cbn [set_offset self URL TIMEOUT ADMINCHATID LOGFILEPATH]. auto.
Qed.

Lemma writeLog_other (msg : pyval) (s : state) (p : string) :
  LOGFILEPATH (self s) <> Some p -> files (writeLog msg s).2 !! p = files s !! p.
Proof.
  intros Hp. unfold writeLog. destruct (LOGFILEPATH (self s)) as [path|]; [|reflexivity].
  destruct (refused path s); [reflexivity|].
  assert (Hne : path <> p) by congruence.
  destruct msg; cbn [snd append open_append tick files];
    rewrite ?lookup_insert_ne by exact Hne; reflexivity.
Qed.

(** X21. The log file is the only file the class touches: over any
    sequence of facade calls and any outcomes, a file at a path other than
    [LOGFILEPATH] is, after every call, what it was at the start, and
    missing if it was missing. *)
Theorem only_log_file_written (ops : list op) (script : list outcome) (s : state) :
  Forall (fun e => forall p, LOGFILEPATH (self s) <> Some p ->
                             files (after e) !! p = files s !! p)
         (perform_all ops script s).
Proof.
  eapply List.Forall_impl;
    [ | apply (perform_all_preserved
                 (fun s s' => LOGFILEPATH (self s') = LOGFILEPATH (self s)
                              /\ forall p, LOGFILEPATH (self s) <> Some p ->
                                           files s' !! p = files s !! p)) ].
  - intros e [_ H]. exact H.
  - auto.
  - intros s1 s2 s3 [H1 H2] [H3 H4]. split; [congruence|].
    intros p Hp. rewrite H4 by congruence. now apply H2.
  - intros r s0. cbn [issue self files]. auto.
  - intros msg s0. split; [now rewrite writeLog_self|]. intros p Hp. now apply writeLog_other.
  - intros n s0. cbn [set_offset self files LOGFILEPATH]. auto.
Qed.

Lemma writeLog_grows (msg : pyval) (s : state) (p : string) :
  exists more,
    default EmptyString (files (writeLog msg s).2 !! p)
    = default EmptyString (files s !! p) +:+ more.
Proof.
  unfold writeLog. destruct (LOGFILEPATH (self s)) as [path|];
    [|exists EmptyString; now rewrite append_nil_r].
  destruct (refused path s); [exists EmptyString; now rewrite append_nil_r|].
  destruct (decide (path = p)) as [->|Hne].
  - destruct msg; cbn [snd append open_append tick files];
      rewrite ?lookup_insert_eq; cbn [default];
      try (exists EmptyString; now rewrite append_nil_r).
    eexists. reflexivity.
  - destruct msg; cbn [snd append open_append tick files];
      rewrite ?lookup_insert_ne by exact Hne;
      exists EmptyString; now rewrite append_nil_r.
Qed.

(** X22. The log is only ever appended to: over any sequence of facade
    calls and any outcomes, what a file held at the start is, after every
    call, the beginning of what it holds; nothing is truncated or
    rewritten. *)
Theorem log_is_append_only (ops : list op) (script : list outcome) (s : state) :
  Forall (fun e => forall p, exists more,
              default EmptyString (files (after e) !! p)
              = default EmptyString (files s !! p) +:+ more)
         (perform_all ops script s).
Proof.
  apply (perform_all_preserved
           (fun s s' => forall p, exists more,
                default EmptyString (files s' !! p)
                = default EmptyString (files s !! p) +:+ more)).
  - intros s0 p. exists EmptyString. now rewrite append_nil_r.
  - intros s1 s2 s3 H1 H2 p. destruct (H1 p) as [m1 E1]. destruct (H2 p) as [m2 E2].
    exists (m1 +:+ m2). rewrite E2, E1. now rewrite append_assoc.
  - intros r s0 p. exists EmptyString. cbn [issue files]. now rewrite append_nil_r.
  - intros msg s0 p. apply writeLog_grows.
  - intros n s0 p. exists EmptyString. cbn [set_offset files]. now rewrite append_nil_r.
Qed.
End Unchanged.
